(** * hoisin: secret validation against regular-expression rules

    A shallow embedding of [src/validateSecrets.ts] (the validation engine
    and its command-line entry) and of [src/index.ts] (the orchestrator
    [run]), followed by the properties of the specification.

    Strings are byte strings (UTF-8 text, as the configuration file, the
    environment and the output streams carry it).  A read of a property
    follows JavaScript: [process.env] and plain objects inherit the
    members of [Object.prototype], and [process.env] reads [undefined]
    for a name that is an array index.  The host's regular
    expression engine, [String.prototype.trim] and the indexing of a
    string by code units are not part of the repository: they are the
    members of the interface [JSHost]. *)

From stdpp Require Import base option list gmap strings pretty sorting.
From Stdlib Require Import ZArith Ascii String Permutation.

Set Warnings "-register-all".

Local Open Scope list_scope.
Local Open Scope Z_scope.

(** ** Completions, events and the state of a process *)

(** A thrown JavaScript [Error].  Every handler of the repository reads
    [e instanceof Error ? e.message : String(e)], or [e.message]: only
    the message matters. *)
Inductive exn : Type :=
| JsError (message : string).

Definition message (e : exn) : string :=
  match e with JsError m => m end.

(** How a statement finishes: normally, by throwing, or because
    [process.exit(code)] ended the process. *)
Inductive completion (A : Type) : Type :=
| Normal (a : A)
| Throw (e : exn)
| Exit (code : Z).
Arguments Normal {A} a.
Arguments Throw {A} e.
Arguments Exit {A} code.

(** What the process does to the outside, in the order it does it.  The
    last two constructors are a call log (what a test double records): a
    read of [process.env[name]] and an entry into [validateSecret]. *)
Inductive event : Type :=
| Stdout (line : string)              (* console.log, when not intercepted *)
| Stderr (line : string)              (* console.error *)
| Debug (msg : string)                (* core.debug *)
| Info (msg : string)                 (* core.info *)
| Warning (msg : string)              (* core.warning *)
| Error (msg : string)                (* core.error *)
| SetFailed (msg : string)            (* core.setFailed *)
| EnvRead (name : string)
| Called_validateSecret (name value pattern : string).

(** [console.log] is a mutable property: [run] replaces it by a closure
    that appends to its local [validationOutput], and restores it. *)
Inductive logger : Type :=
| original_console_log
| capture_console_log.

Record state : Type := mkState {
  log : list event;
  console_log : logger;
  validationOutput : string
}.

Definition initial_state : state :=
  {| log := []; console_log := original_console_log; validationOutput := "" |}.

(** ** The monad of JavaScript statements *)

Definition JS (A : Type) : Type := state → completion A * state.

#[global] Instance JS_ret : MRet JS := λ A a s, (Normal a, s).

#[global] Instance JS_bind : MBind JS := λ A B k m s,
  match m s with
  | (Normal a, s') => k a s'
  | (Throw e, s') => (Throw e, s')
  | (Exit c, s') => (Exit c, s')
  end.

Definition throw {A} (e : exn) : JS A := λ s, (Throw e, s).

(** [try { body } catch (e) { handler e }]: [process.exit] is not caught. *)
Definition try_catch {A} (body : JS A) (handler : exn → JS A) : JS A := λ s,
  match body s with
  | (Throw e, s') => handler e s'
  | r => r
  end.

Definition process_exit {A} (code : Z) : JS A := λ s, (Exit code, s).

Definition emit (e : event) : JS unit := λ s,
  (Normal (), {| log := log s ++ [e];
                 console_log := console_log s;
                 validationOutput := validationOutput s |}).

Definition newline : string := String "010"%char EmptyString.
Definition dquote : string := String "034"%char EmptyString.

(** [console.log(message)], through whatever [console.log] currently is. *)
Definition console_log_call (msg : string) : JS unit := λ s,
  match console_log s with
  | original_console_log => emit (Stdout msg) s
  | capture_console_log =>
      (Normal (), {| log := log s;
                     console_log := capture_console_log;
                     validationOutput := validationOutput s +:+ msg +:+ newline |})
  end.

Definition console_error (msg : string) : JS unit := emit (Stderr msg).

(** [let validationOutput = ''; console.log = (message) => {...}] *)
Definition intercept_console_log : JS unit := λ s,
  (Normal (), {| log := log s; console_log := capture_console_log;
                 validationOutput := "" |}).

(** [console.log = originalConsoleLog] *)
Definition restore_console_log : JS unit := λ s,
  (Normal (), {| log := log s; console_log := original_console_log;
                 validationOutput := validationOutput s |}).

Definition read_validationOutput : JS string := λ s,
  (Normal (validationOutput s), s).

(** ** The host: regular expressions and [trim] *)

Class JSHost : Type := {
  RegExp : Type;
  (** [new RegExp(pattern)]: the compiled expression, or the [SyntaxError]. *)
  RegExp_new : string → exn + RegExp;
  (** [regex.test(value)], for an expression without flags (no state). *)
  RegExp_test : RegExp → string → bool;
  (** [s.trim()] *)
  String_trim : string → string;
  (** The code units of a string, each as a string of its own: what
      indexing a string, and so [Object.entries] of it, yields. *)
  String_units : string → list string
}.

(** JavaScript truthiness of a string: only [''] is falsy. *)
Definition truthy_string (s : string) : bool :=
  match s with
  | EmptyString => false
  | String _ _ => true
  end.

Module ValidateSecrets.
Section Engine.
Context `{JSHost}.

Definition msg_mismatch (name pattern : string) : string :=
  "❌ Secret '" +:+ name +:+ "' does not match the required pattern: " +:+ pattern.

Definition msg_valid (name : string) : string :=
  "✅ Secret '" +:+ name +:+ "' is valid.".

Definition msg_error (name detail : string) : string :=
  "⚠️ Error validating secret '" +:+ name +:+ "': " +:+ detail.

(** [new RegExp(pattern)] as a statement. *)
Definition new_RegExp (pattern : string) : JS RegExp :=
  match RegExp_new pattern with
  | inl e => throw e
  | inr regex => mret regex
  end.

(** validateSecrets.ts, lines 8-22.  The first line is the entry in the
    call log; the function prints exactly one line on each path. *)
Definition validateSecret (name value pattern : string) : JS bool :=
  emit (Called_validateSecret name value pattern);;
  try_catch
    (regex ← new_RegExp pattern;
     if negb (RegExp_test regex value) then
       console_log_call (msg_mismatch name pattern);;
       mret false
     else
       console_log_call (msg_valid name);;
       mret true)
    (λ e,
       console_log_call (msg_error name (message e));;
       mret false).

(** The argument loop of lines 33-44: [args[i]] is a flag only when an
    element follows it, and that element is then skipped. *)
Fixpoint parse_args (args : list string) (name value regex : string)
  : string * string * string :=
  match args with
  | [] => (name, value, regex)
  | arg :: rest =>
      match rest with
      | [] => (name, value, regex)
      | next :: rest' =>
          if String.eqb arg "--name" then parse_args rest' next value regex
          else if String.eqb arg "--value" then parse_args rest' name next regex
          else if String.eqb arg "--regex" then parse_args rest' name value next
          else parse_args rest name value regex
      end
  end.

Definition usage : string :=
  "Missing required arguments. Usage: node validateSecrets.js --name NAME --value VALUE --regex PATTERN".

(** validateSecrets.ts, lines 25-58, for [args = process.argv.slice(2)]. *)
Definition main (args : list string) : JS unit :=
  try_catch
    (let '(name, value, regex) := parse_args args "" "" "" in
     (if negb (truthy_string name) || negb (truthy_string value)
         || negb (truthy_string regex)
      then console_error usage;; process_exit 1
      else mret ());;
     result ← validateSecret name value regex;
     process_exit (if result : bool then 0 else 1))
    (λ error,
       console_error ("Unexpected error: " +:+ message error);;
       process_exit 1).

End Engine.
End ValidateSecrets.

(** ** Objects with string values *)

(** An object whose values are strings, as [loadEnvChecks] builds one with
    [envChecks[key] = type] and [validateEnv] walks it with [for ... in]. *)
Module JsObject.

(** The own properties, in the order of their creation; names distinct. *)
Definition t : Type := list (string * string).

(** [o[key]], for an own property. *)
Fixpoint get (key : string) (o : t) : option string :=
  match o with
  | [] => None
  | (k, v) :: rest => if String.eqb k key then Some v else get key rest
  end.

(** A property that exists keeps its place; a new one comes last. *)
Fixpoint set_own (key value : string) (o : t) : t :=
  match o with
  | [] => [(key, value)]
  | (k, v) :: rest =>
      if String.eqb k key then (k, value) :: rest
      else (k, v) :: set_own key value rest
  end.

(** [o[key] = value] on an object literal: assigning a string to
    [__proto__] reaches the setter of the prototype, which ignores it. *)
Definition set (key value : string) (o : t) : t :=
  if String.eqb key "__proto__" then o else set_own key value o.

Fixpoint parse_digits (s : string) (acc : N) : option N :=
  match s with
  | EmptyString => Some acc
  | String c rest =>
      match Ascii.is_nat c with
      | Some d => parse_digits rest (10 * acc + N.of_nat d)%N
      | None => None
      end
  end.

(** An array index: the decimal numeral, without sign or leading zero,
    of an integer below 2^32 - 1. *)
Definition array_index (key : string) : option N :=
  match key with
  | EmptyString => None
  | _ =>
      match parse_digits key 0%N with
      | Some n =>
          if (n <? 4294967295)%N && String.eqb (pretty n) key then Some n else None
      | None => None
      end
  end.

Definition is_array_index (key : string) : bool :=
  match array_index key with
  | Some _ => true
  | None => false
  end.

(** The keys in the order [for (const key in o)] visits them: the array
    indices by ascending value, then the other names by creation. *)
Definition keys (o : t) : list string :=
  List.map pretty (merge_sort N.le (omap array_index (List.map fst o)))
  ++ List.filter (λ key, negb (is_array_index key)) (List.map fst o).

End JsObject.

(** ** Reading a property: own variables and inherited members *)

(** The members every plain object inherits from [Object.prototype], each
    with the string it is coerced to: the native functions print their
    name, and [__proto__] reads the prototype itself. *)
Definition Object_prototype (name : string) : option string :=
  if String.eqb name "constructor"
  then Some "function Object() { [native code] }"
  else if String.eqb name "__proto__" then Some "[object Object]"
  else if existsb (String.eqb name)
            ["toString"; "toLocaleString"; "valueOf"; "hasOwnProperty";
             "isPrototypeOf"; "propertyIsEnumerable"; "__defineGetter__";
             "__defineSetter__"; "__lookupGetter__"; "__lookupSetter__"]
  then Some ("function " +:+ name +:+ "() { [native code] }")
  else None.

(** [env[key]] on a plain object whose own properties are [own]: the own
    string, else the inherited member, else [undefined].  The value is
    held as the string it is, or is coerced to where it is used; that of
    an inherited member is never empty, so it is truthy as the member is. *)
Definition read_plain (own : gmap string string) (key : string) : option string :=
  match own !! key with
  | Some value => Some value
  | None => Object_prototype key
  end.

(** [process.env[name]]: as on a plain object, but a name that is an array
    index reads [undefined] whatever the variables are. *)
Definition read_process_env (variables : gmap string string) (name : string)
  : option string :=
  if JsObject.is_array_index name then None else read_plain variables name.

(** ** JavaScript values of the parsed configuration *)

(** The values [TOML.parse] builds (its declared type is [any]): strings,
    numbers, booleans, arrays and tables, and [undefined] for a property
    that is not there.  A number is held as the program observes it:
    whether it is truthy (neither zero nor NaN) and the string it prints
    as, so that 0 is [JNumber false "0"] and 10^21 is
    [JNumber true "1e+21"].  A table is an object without prototype; it lists its properties,
    whose names are distinct, in enumeration order.  Dates are left
    out. *)
Inductive jsval : Type :=
| JUndefined
| JString (s : string)
| JNumber (nonzero : bool) (text : string)
| JBoolean (b : bool)
| JArray (elems : list jsval)
| JObject (props : list (string * jsval)).

Definition truthy (v : jsval) : bool :=
  match v with
  | JUndefined => false
  | JString s => truthy_string s
  | JNumber nonzero _ => nonzero
  | JBoolean b => b
  | JArray _ => true
  | JObject _ => true
  end.

(** The string a value is coerced to, in a template literal and by
    [new RegExp(v)].  A table has no prototype, so it has no [toString]
    and the coercion throws; an array joins the strings of its elements,
    [undefined] printing as nothing. *)
Fixpoint ToString (v : jsval) : exn + string :=
  match v with
  | JUndefined => inr "undefined"
  | JString s => inr s
  | JNumber _ text => inr text
  | JBoolean b => inr (if b then "true" else "false")
  | JArray elems =>
      (fix join_elems (l : list jsval) : exn + string :=
         match l with
         | [] => inr ""
         | x :: rest =>
             match (match x with JUndefined => inr "" | _ => ToString x end) with
             | inl e => inl e
             | inr first =>
                 match rest with
                 | [] => inr first
                 | _ :: _ =>
                     match join_elems rest with
                     | inl e => inl e
                     | inr others => inr (first +:+ "," +:+ others)
                     end
                 end
             end
         end) elems
  | JObject _ => inl (JsError "Cannot convert object to primitive value")
  end.

(** [obj[key]] *)
Fixpoint get_property (key : string) (props : list (string * jsval)) : jsval :=
  match props with
  | [] => JUndefined
  | (k, v) :: rest => if String.eqb k key then v else get_property key rest
  end.

Module Index.
Section Run.
Context `{JSHost}.

(** [Object.entries(v)] *)
Definition Object_entries (v : jsval) : exn + list (string * jsval) :=
  match v with
  | JUndefined => inl (JsError "Cannot convert undefined or null to object")
  | JObject props => inr props
  | JArray elems => inr (imap (λ i x, (pretty i, x)) elems)
  | JString s => inr (imap (λ i c, (pretty i, JString c)) (String_units s))
  | JNumber _ _ => inr []
  | JBoolean _ => inr []
  end.

(** [Object.keys(v)] *)
Definition Object_keys (v : jsval) : exn + list string :=
  match Object_entries v with
  | inl e => inl e
  | inr entries => inr (List.map fst entries)
  end.

(** What [run] reads from its surroundings. *)
Record World : Type := mkWorld {
  (** [core.getInput(name, { required: true })] *)
  core_getInput : string → exn + string;
  (** [path.resolve(process.cwd(), p)] *)
  path_resolve : string → string;
  existsSync : string → bool;
  (** [await fsPromises.readFile(p, 'utf-8')] *)
  readFile : string → exn + string;
  (** [TOML.parse(text)]: the properties of the top-level table. *)
  TOML_parse : string → exn + list (string * jsval);
  (** The variables of the process, read through [read_process_env]. *)
  process_env : gmap string string
}.

Definition lift {A} (r : exn + A) : JS A :=
  match r with
  | inl e => throw e
  | inr a => mret a
  end.

Definition core_debug (msg : string) : JS unit := emit (Debug msg).
Definition core_info (msg : string) : JS unit := emit (Info msg).
Definition core_warning (msg : string) : JS unit := emit (Warning msg).
Definition core_error (msg : string) : JS unit := emit (Error msg).
Definition core_setFailed (msg : string) : JS unit := emit (SetFailed msg).

(** [process.env[name]] *)
Definition env_lookup (w : World) (name : string) : JS (option string) :=
  emit (EnvRead name);;
  mret (read_process_env (process_env w) name).

Definition msg_not_found (name : string) : string :=
  "Secret " +:+ dquote +:+ name +:+ dquote +:+ " not found in environment.".

Definition msg_validating (name pattern : string) : string :=
  "Validating secret: " +:+ name +:+ " with pattern: " +:+ pattern.

Definition msg_failed (name : string) : string :=
  "Validation failed for secret: " +:+ name.

(** The [try] block of one iteration (index.ts, lines 43-72).  The
    pattern is coerced to a string first of all, by the template of the
    debug message; [new RegExp] coerces it in the same way. *)
Definition validate_rule (name secretValue : string) (regex : jsval)
    (hasFailures : bool) : JS bool :=
  try_catch
    (pattern ← lift (ToString regex);
     core_debug (msg_validating name pattern);;
     intercept_console_log;;
     isValid ← ValidateSecrets.validateSecret name secretValue pattern;
     restore_console_log;;
     validationOutput ← read_validationOutput;
     (if truthy_string validationOutput
      then core_info (String_trim validationOutput)
      else mret ());;
     if negb isValid then
       core_error (msg_failed name);;
       mret true
     else mret hasFailures)
    (λ error,
       core_error (msg_failed name);;
       mret true).

(** One iteration of the loop of index.ts, lines 35-73; the result is the
    value of [hasFailures] after it.  [!secretValue] holds of [undefined]
    and of the empty string. *)
Definition rule_body (w : World) (name : string) (regex : jsval)
    (hasFailures : bool) : JS bool :=
  secretValue ← env_lookup w name;
  let not_found := (core_warning (msg_not_found name);; mret true) in
  match secretValue with
  | None => not_found
  | Some secretValue =>
      if negb (truthy_string secretValue) then not_found
      else validate_rule name secretValue regex hasFailures
  end.

(** [for (const [name, regex] of Object.entries(...))] *)
Fixpoint for_entries (w : World) (entries : list (string * jsval))
    (hasFailures : bool) : JS bool :=
  match entries with
  | [] => mret hasFailures
  | (name, regex) :: rest =>
      hasFailures' ← rule_body w name regex hasFailures;
      for_entries w rest hasFailures'
  end.

Definition msg_no_file (tomlFilePath : string) : string :=
  "TOML file not found at path: " +:+ tomlFilePath.

Definition msg_invalid_format : string :=
  "Invalid configuration file format. Missing " +:+ dquote +:+ "secrets"
  +:+ dquote +:+ " section.".

Definition msg_found (n : nat) : string :=
  "Found " +:+ pretty n +:+ " secrets to validate".

(** index.ts, lines 11-83. *)
Definition run (w : World) : JS unit :=
  try_catch
    (configFilePath ← lift (core_getInput w "config-file");
     let tomlFilePath := path_resolve w configFilePath in
     core_debug ("Looking for TOML configuration at: " +:+ tomlFilePath);;
     if negb (existsSync w tomlFilePath) then
       core_setFailed (msg_no_file tomlFilePath)
     else
       tomlContent ← lift (readFile w tomlFilePath);
       secretsConfig ← lift (TOML_parse w tomlContent);
       let secrets := get_property "secrets" secretsConfig in
       if negb (truthy (JObject secretsConfig)) || negb (truthy secrets) then
         core_setFailed msg_invalid_format
       else
         keys ← lift (Object_keys secrets);
         core_info (msg_found (List.length keys));;
         entries ← lift (Object_entries secrets);
         hasFailures ← for_entries w entries false;
         if hasFailures : bool then
           core_setFailed "One or more secrets failed validation"
         else
           core_info "All secrets validated successfully")
    (λ error,
       core_setFailed ("Secret validation failed: " +:+ message error)).

(** Everything a whole run of the action does, from a fresh process. *)
Definition run_trace (w : World) : list event :=
  log (snd (run w initial_state)).

End Run.
End Index.

(** ** A small host and two configurations, for examples *)

Module Sample.

Definition contains (needle s : string) : bool :=
  match String.index 0 needle s with
  | Some _ => true
  | None => false
  end.

Fixpoint trim_start (s : string) : string :=
  match s with
  | EmptyString => EmptyString
  | String c rest => if Ascii.is_space c then trim_start rest else s
  end.

(** A host whose patterns are plain texts, looked for anywhere in the
    value; a pattern with an opening parenthesis does not compile. *)
Definition literal_host : JSHost := {|
  RegExp := string;
  RegExp_new pattern :=
    if contains "(" pattern
    then inl (JsError ("Invalid regular expression: /" +:+ pattern
                       +:+ "/: Unterminated group"))
    else inr pattern;
  RegExp_test regex value := contains regex value;
  String_trim s := String.rev (trim_start (String.rev (trim_start s)));
  String_units s := List.map (λ c, String c EmptyString) (list_ascii_of_string s)
|}.

Definition world (doc : exn + list (string * jsval))
    (env : gmap string string) : Index.World :=
  {| Index.core_getInput name :=
       if String.eqb name "config-file"
       then inr ".github/secret-validation.toml"
       else inl (JsError ("Input required and not supplied: " +:+ name));
     Index.path_resolve p := "/repo/" +:+ p;
     Index.existsSync p := String.eqb p "/repo/.github/secret-validation.toml";
     Index.readFile p := inr "[secrets]";
     Index.TOML_parse text := doc;
     Index.process_env := env |}.

Definition two_rules : list (string * jsval) :=
  [("secrets", JObject [("API_KEY", JString "KEY-"); ("PASSWORD", JString "pw")])].

Definition two_rules_swapped : list (string * jsval) :=
  [("secrets", JObject [("PASSWORD", JString "pw"); ("API_KEY", JString "KEY-")])].

(** A rule for a secret the environment does not have. *)
Definition with_missing_rule : list (string * jsval) :=
  [("secrets", JObject [("API_KEY", JString "KEY-");
                        ("MISSING_SECRET", JString "x")])].

(** A rule named like a member that every object inherits. *)
Definition with_inherited_rule : list (string * jsval) :=
  [("secrets", JObject [("toString", JString "native")])].

(** Three rules off the beaten track: an inherited name, a name that is
    an array index, and a pattern that is a table. *)
Definition odd_rules : list (string * jsval) :=
  [("secrets", JObject [("toString", JString "native");
                        ("2", JString "b");
                        ("API_KEY", JObject [])])].

Definition odd_env : gmap string string :=
  {[ "2" := "b"; "API_KEY" := "KEY-1" ]}.

(** [secrets = true]: present, and not a table. *)
Definition secrets_flag : list (string * jsval) :=
  [("secrets", JBoolean true)].

(** [secrets = false] *)
Definition secrets_off : list (string * jsval) :=
  [("secrets", JBoolean false)].

(** A document with another table only. *)
Definition no_secrets : list (string * jsval) :=
  [("settings", JObject [("verbose", JBoolean true)])].

(** [[secrets]] with no rule. *)
Definition empty_table : list (string * jsval) :=
  [("secrets", JObject [])].

Definition good_env : gmap string string :=
  {[ "API_KEY" := "KEY-1234"; "PASSWORD" := "my-pw" ]}.

Definition bad_env : gmap string string :=
  {[ "API_KEY" := "1234"; "PASSWORD" := "my-pw" ]}.

End Sample.

(** ** Vocabulary of the properties *)

(** The [errorKind] of the specification's outcome of one rule. *)
Inductive errorKind : Type :=
| none
| pattern_compile_error
| value_missing
| pattern_mismatch.

Definition is_setFailed (e : event) : bool :=
  match e with
  | SetFailed _ => true
  | _ => false
  end.

(** The text an event carries. *)
Definition event_text (e : event) : string :=
  match e with
  | Stdout m | Stderr m | Debug m | Info m | Warning m | Error m
  | SetFailed m => m
  | EnvRead name => name
  | Called_validateSecret name _ _ => name
  end.

(** The events the processing of a rule consists of: a read of the
    environment, an entry into the validation engine, and the messages
    sent through [console.log], [core.info], [core.warning] and
    [core.error]. *)
Definition per_rule_event (e : event) : bool :=
  match e with
  | EnvRead _ | Called_validateSecret _ _ _ => true
  | Stdout _ | Info _ | Warning _ | Error _ => true
  | Stderr _ | Debug _ | SetFailed _ => false
  end.

(** [m], started in [s], finishes normally with [a], having emitted
    [events] and with [console.log] as it was at the start of a run. *)
Definition runs_to {A} (m : JS A) (s : state) (a : A) (events : list event) : Prop :=
  (m s).1 = Normal a ∧
  log (m s).2 = log s ++ events ∧
  console_log (m s).2 = original_console_log.

Section Vocabulary.
Context `{JSHost}.
Import ValidateSecrets Index.

(** What [validateSecret] returns and the line it prints, read off the
    host's answers. *)
Definition test_result (pattern value : string) : bool :=
  match RegExp_new pattern with
  | inl _ => false
  | inr regex => RegExp_test regex value
  end.

Definition verdict (name value pattern : string) : string :=
  match RegExp_new pattern with
  | inl e => msg_error name (message e)
  | inr regex =>
      if RegExp_test regex value then msg_valid name
      else msg_mismatch name pattern
  end.

(** The branch of [validateSecret] that ran, as an [errorKind]. *)
Definition errorKind_of (pattern value : string) : errorKind :=
  match RegExp_new pattern with
  | inl _ => pattern_compile_error
  | inr regex =>
      if RegExp_test regex value then none else pattern_mismatch
  end.

(** The name of a rule is absent from the environment, or bound to the
    empty string. *)
Definition absent_or_empty (w : World) (name : string) : Prop :=
  process_env w !! name = None ∨ process_env w !! name = Some "".

(** The value of a rule is missing: the read of [process.env[name]]
    gives [undefined] or the empty string. *)
Definition missing_value (w : World) (name : string) : Prop :=
  read_process_env (process_env w) name = None ∨
  read_process_env (process_env w) name = Some "".


Definition rule_fails (w : World) (rule : string * jsval) : bool :=
  match read_process_env (process_env w) rule.1 with
  | None => true
  | Some value =>
      negb (truthy_string value)
      || match ToString rule.2 with
         | inl _ => true
         | inr pattern => negb (test_result pattern value)
         end
  end.

(** What one iteration of the loop emits. *)
Definition rule_events (w : World) (rule : string * jsval) : list event :=
  EnvRead rule.1 ::
  match read_process_env (process_env w) rule.1 with
  | None => [Warning (msg_not_found rule.1)]
  | Some value =>
      if negb (truthy_string value) then [Warning (msg_not_found rule.1)]
      else
        match ToString rule.2 with
        | inl _ => [Error (msg_failed rule.1)]
        | inr pattern =>
            [Debug (msg_validating rule.1 pattern);
             Called_validateSecret rule.1 value pattern;
             Info (String_trim (verdict rule.1 value pattern +:+ newline))]
            ++ (if test_result pattern value then []
                else [Error (msg_failed rule.1)])
        end
  end.

Definition final_event (hasFailures : bool) : event :=
  if hasFailures then SetFailed "One or more secrets failed validation"
  else Info "All secrets validated successfully".

Definition msg_looking (tomlFilePath : string) : string :=
  "Looking for TOML configuration at: " +:+ tomlFilePath.

Definition msg_unexpected (e : exn) : string :=
  "Secret validation failed: " +:+ message e.

(** The trace of a whole run, case by case. *)
Definition run_events (w : World) : list event :=
  match core_getInput w "config-file" with
  | inl e => [SetFailed (msg_unexpected e)]
  | inr configFilePath =>
      let tomlFilePath := path_resolve w configFilePath in
      Debug (msg_looking tomlFilePath) ::
      if negb (existsSync w tomlFilePath) then [SetFailed (msg_no_file tomlFilePath)]
      else
        match readFile w tomlFilePath with
        | inl e => [SetFailed (msg_unexpected e)]
        | inr tomlContent =>
            match TOML_parse w tomlContent with
            | inl e => [SetFailed (msg_unexpected e)]
            | inr secretsConfig =>
                let secrets := get_property "secrets" secretsConfig in
                if negb (truthy secrets) then [SetFailed msg_invalid_format]
                else
                  match Object_entries secrets with
                  | inl e => [SetFailed (msg_unexpected e)]
                  | inr entries =>
                      Info (msg_found (List.length entries)) ::
                      flat_map (rule_events w) entries
                      ++ [final_event (existsb (rule_fails w) entries)]
                  end
            end
        end
  end.

(** The configuration file was found, read and parsed into [doc]. *)
Definition config_loaded (w : World) (doc : list (string * jsval)) : Prop :=
  ∃ configFilePath tomlContent,
    core_getInput w "config-file" = inr configFilePath ∧
    existsSync w (path_resolve w configFilePath) = true ∧
    readFile w (path_resolve w configFilePath) = inr tomlContent ∧
    TOML_parse w tomlContent = inr doc.

(** The configuration file does not exist at the resolved path. *)
Definition config_not_found (w : World) : Prop :=
  ∃ configFilePath,
    core_getInput w "config-file" = inr configFilePath ∧
    existsSync w (path_resolve w configFilePath) = false.

(** The [secrets] entry is a table from names to pattern strings. *)
Definition string_mapping (v : jsval) : Prop :=
  ∃ rules, v = JObject rules ∧ Forall (λ rule, ∃ p, rule.2 = JString p) rules.

Definition well_formed (doc : list (string * jsval)) : Prop :=
  string_mapping (get_property "secrets" doc).

(** Two values of [secrets] with the same rules, in any order. *)
Definition same_rules (v v' : jsval) : Prop :=
  match v, v' with
  | JObject rules, JObject rules' => Permutation rules rules'
  | _, _ => v = v'
  end.

(** Two worlds that differ at most in the order in which the parsed
    configuration lists its rules. *)
Definition same_up_to_rule_order (w w' : World) : Prop :=
  core_getInput w = core_getInput w' ∧
  path_resolve w = path_resolve w' ∧
  existsSync w = existsSync w' ∧
  readFile w = readFile w' ∧
  process_env w = process_env w' ∧
  ∀ text,
    match TOML_parse w text, TOML_parse w' text with
    | inl e, inl e' => e = e'
    | inr doc, inr doc' =>
        same_rules (get_property "secrets" doc) (get_property "secrets" doc')
    | _, _ => False
    end.

(** The overall signals of a run: the calls of [core.setFailed], and
    whether the run closes with the message of success. *)
Definition closes_with_success (trace : list event) : bool :=
  match last trace with
  | Some (Info msg) => String.eqb msg "All secrets validated successfully"
  | _ => false
  end.

Definition aggregate_outcome (trace : list event) : list event * bool :=
  (List.filter is_setFailed trace, closes_with_success trace).

End Vocabulary.

(** ** validateEnv.ts: the check file and the checks *)

Module ValidateEnv.

(** A statement that returns or throws, and has no other effect. *)
Definition result (A : Type) : Type := (exn + A)%type.

(** [s.split(sep)] for a separator of one character. *)
Fixpoint split (sep : ascii) (s : string) : list string :=
  match s with
  | EmptyString => [EmptyString]
  | String c rest =>
      if Ascii.eqb c sep then EmptyString :: split sep rest
      else
        match split sep rest with
        | [] => [String c EmptyString]
        | field :: fields => String c field :: fields
        end
  end.

Definition is_hex (c : ascii) : bool :=
  let n := nat_of_ascii c in
  ((48 <=? n) && (n <=? 57) || (97 <=? n) && (n <=? 102)
   || (65 <=? n) && (n <=? 70))%nat.

(** [/^[0-9a-fA-F]{40}$/.test(value)]: without the [m] flag the dollar
    matches at the end of the value only. *)
Definition is_sha (value : string) : bool :=
  (String.length value =? 40)%nat && forallb is_hex (list_ascii_of_string value).

Definition msg_missing (key : string) : string :=
  "Environment variable " +:+ key +:+ " is missing.".

Definition msg_not_sha (key : string) : string :=
  "Environment variable " +:+ key +:+ " is not a valid SHA.".

(** The body of the loop of validateEnv.ts, lines 21-31. *)
Definition check (env : gmap string string) (envChecks : JsObject.t)
    (key : string) : result unit :=
  let value := read_plain env key in
  let expectedType := JsObject.get key envChecks in
  match value with
  | None => inl (JsError (msg_missing key))
  | Some value =>
      if negb (truthy_string value) then inl (JsError (msg_missing key))
      else
        match expectedType with
        | Some type =>
            if String.eqb type "sha" && negb (is_sha value)
            then inl (JsError (msg_not_sha key))
            else inr ()
        | None => inr ()
        end
  end.

Fixpoint for_in (keys : list string) (body : string → result unit) : result unit :=
  match keys with
  | [] => inr ()
  | key :: rest =>
      match body key with
      | inl e => inl e
      | inr _ => for_in rest body
      end
  end.

(** validateEnv.ts, lines 20-32.  [env] is a plain object, given by its
    own properties. *)
Definition validateEnv (env : gmap string string) (envChecks : JsObject.t)
  : result unit :=
  for_in (JsObject.keys envChecks) (check env envChecks).

Section Loading.
Context `{JSHost}.

(** The callback of [forEach] (lines 12-15): the first two fields of the
    line, trimmed; the second is [undefined] when the line has no colon. *)
Definition add_line (envChecks : JsObject.t) (line : string) : JsObject.t :=
  let fields := List.map String_trim (split ":" line) in
  let key := nth 0 fields EmptyString in
  let type := nth_error fields 1 in
  match type with
  | Some type =>
      if truthy_string key && truthy_string type
      then JsObject.set key type envChecks
      else envChecks
  | None => envChecks
  end.

Definition parse_checks (fileContent : string) : JsObject.t :=
  fold_left add_line (split "010" fileContent) [].

(** What validateEnv.ts and the action's entry read from outside. *)
Record World : Type := mkWorld {
  (** [fs.readFileSync(p, 'utf-8')] *)
  readFileSync : string → result string;
  (** [path.resolve(__dirname, '../env_checks.toml')] *)
  env_checks_path : string;
  (** [core.getInput(name)] *)
  core_getInput : string → string;
  (** The variables of the process. *)
  process_env : gmap string string
}.

(** validateEnv.ts, lines 8-18. *)
Definition loadEnvChecks (w : World) (filePath : string) : result JsObject.t :=
  match readFileSync w filePath with
  | inl e => inl e
  | inr fileContent => inr (parse_checks fileContent)
  end.

(** [filteredEnv] (lines 35-40): a plain object that gets every variable
    of the process whose read is not [undefined].  A variable named by an
    array index reads [undefined], and the assignment to [__proto__] does
    nothing: both are left out. *)
Definition filteredEnv (w : World) : gmap string string :=
  filter (λ variable, JsObject.is_array_index variable.1 = false
                      ∧ variable.1 ≠ "__proto__")
         (process_env w).

(** The statement at the end of validateEnv.ts (line 43), run when the
    module is first imported. *)
Definition module_body (w : World) : result unit :=
  match loadEnvChecks w (env_checks_path w) with
  | inl e => inl e
  | inr envChecks => validateEnv (filteredEnv w) envChecks
  end.

(** What the action's entry reports. *)
Inductive report : Type :=
| SetOutput (name : string) (value : bool)   (* core.setOutput *)
| SetFailedWith (msg : string).              (* core.setFailed *)

(** The [try] block of the entry that imports validateEnv.ts. *)
Definition entry_checks (w : World) : result unit :=
  let envFile := core_getInput w "env-file" in
  match loadEnvChecks w envFile with
  | inl e => inl e
  | inr envChecks => validateEnv (filteredEnv w) envChecks
  end.

(** The entry as a whole: the import runs [module_body], outside of any
    handler; then the [try] block and its [catch]. *)
Definition entry (w : World) : result (list report) :=
  match module_body w with
  | inl e => inl e
  | inr _ =>
      match entry_checks w with
      | inr _ => inr [SetOutput "validation-passed" true]
      | inl error => inr [SetFailedWith (message error)]
      end
  end.

End Loading.
End ValidateEnv.

(** ** More samples *)

Module Sample2.

Definition sha1 : string := "0123456789abcdef0123456789ABCDEF01234567".

Definition checks_text : string :=
  "COMMIT: sha" +:+ newline +:+ "# comment" +:+ newline
  +:+ "BRANCH : name" +:+ newline +:+ "10: x" +:+ newline +:+ "2: y" +:+ newline.

Definition files (path : string) : ValidateEnv.result string :=
  if String.eqb path "/action/env_checks.toml" then inr checks_text
  else if String.eqb path "extra.toml" then inr ("TOKEN: sha" +:+ newline)
  else inl (JsError ("ENOENT: no such file or directory, open '" +:+ path +:+ "'")).

Definition env_ok : gmap string string :=
  {[ "COMMIT" := sha1; "BRANCH" := "main"; "10" := "a"; "2" := "b";
     "TOKEN" := sha1 ]}.

Definition env_bad_token : gmap string string :=
  {[ "COMMIT" := sha1; "BRANCH" := "main"; "10" := "a"; "2" := "b";
     "TOKEN" := "short" ]}.

Definition env_no_commit : gmap string string :=
  {[ "BRANCH" := "main"; "10" := "a"; "2" := "b"; "TOKEN" := sha1 ]}.

(** Checks declared in the order COMMIT, 10, 2. *)
Definition three_checks : JsObject.t :=
  [("COMMIT", "sha"); ("10", "text"); ("2", "text")].

(** [COMMIT] is not a SHA and [10] is not set. *)
Definition env_two_faults : gmap string string :=
  {[ "COMMIT" := "abc"; "2" := "b" ]}.

Definition world (env : gmap string string) : ValidateEnv.World :=
  {| ValidateEnv.readFileSync := files;
     ValidateEnv.env_checks_path := "/action/env_checks.toml";
     ValidateEnv.core_getInput name :=
       if String.eqb name "env-file" then "extra.toml" else "";
     ValidateEnv.process_env := env |}.

End Sample2.

(** ** Vocabulary of the further properties *)

(** The names [run] looked up in the environment, in order. *)
Definition env_reads (trace : list event) : list string :=
  omap (λ e, match e with EnvRead name => Some name | _ => None end) trace.

(** The calls of [validateSecret], in order. *)
Definition engine_calls (trace : list event) : list (string * string * string) :=
  omap (λ e, match e with
             | Called_validateSecret name value pattern => Some (name, value, pattern)
             | _ => None
             end) trace.

Definition is_stdout (e : event) : bool :=
  match e with
  | Stdout _ => true
  | _ => false
  end.

(** The call a rule leads to: none when the read of its variable is
    [undefined] or empty, and none when its pattern cannot be coerced to
    a string. *)
Definition present_call (env : gmap string string) (rule : string * jsval)
  : option (string * string * string) :=
  match read_process_env env rule.1 with
  | Some value =>
      if truthy_string value then
        match ToString rule.2 with
        | inr pattern => Some (rule.1, value, pattern)
        | inl _ => None
        end
      else None
  | None => None
  end.

(** The value the last pair of [options] gives to [flag], or [default]. *)
Definition last_value (flag : string) (options : list (string * string))
    (default : string) : string :=
  fold_left (λ acc option, if String.eqb option.1 flag then option.2 else acc)
            options default.

Definition is_option (flag : string) : bool :=
  String.eqb flag "--name" || String.eqb flag "--value" || String.eqb flag "--regex".

(** Reading the input, reading the file or parsing it throws [e]. *)
Definition config_load_throws (w : Index.World) (e : exn) : Prop :=
  Index.core_getInput w "config-file" = inl e ∨
  ∃ configFilePath,
    Index.core_getInput w "config-file" = inr configFilePath ∧
    Index.existsSync w (Index.path_resolve w configFilePath) = true ∧
    (Index.readFile w (Index.path_resolve w configFilePath) = inl e ∨
     ∃ tomlContent,
       Index.readFile w (Index.path_resolve w configFilePath) = inr tomlContent ∧
       Index.TOML_parse w tomlContent = inl e).

(** Every key of the checks reads, on the plain object [env], a value
    that is not empty and that is a SHA where the check says so. *)
Definition passes (env : gmap string string) (envChecks : JsObject.t) : Prop :=
  ∀ key type, JsObject.get key envChecks = Some type →
    ∃ value, read_plain env key = Some value ∧ value ≠ "" ∧
             (type = "sha" → ValidateEnv.is_sha value = true).

(** The key and type a line of the check file declares, if it does. *)
Definition declared `{JSHost} (line : string) : option (string * string) :=
  let fields := List.map String_trim (ValidateEnv.split ":" line) in
  match nth_error fields 0, nth_error fields 1 with
  | Some key, Some type =>
      if truthy_string key && truthy_string type then Some (key, type) else None
  | _, _ => None
  end.


(** ** How the statements run *)

Section Running.
Context `{JSHost}.
Import ValidateSecrets Index.

Lemma truthy_line (msg : string) : truthy_string (msg +:+ newline) = true.
Proof. destruct msg; reflexivity. Qed.

Lemma validateSecret_runs name value pattern s :
  validateSecret name value pattern s =
  (Normal (test_result pattern value),
   (console_log_call (verdict name value pattern)
      (emit (Called_validateSecret name value pattern) s).2).2).
Proof.
  unfold validateSecret, test_result, verdict, new_RegExp, try_catch, throw.
  unfold mbind, JS_bind, mret, JS_ret. cbn [emit fst snd].
  destruct (RegExp_new pattern) as [e|regex]; cbn.
  - unfold console_log_call; cbn. destruct (console_log s); reflexivity.
  - destruct (RegExp_test regex value); cbn;
      unfold console_log_call; cbn; destruct (console_log s); reflexivity.
Qed.

Lemma runs_to_bind {A B} (m : JS A) (k : A → JS B) s a b events events' :
  runs_to m s a events →
  (∀ s', console_log s' = original_console_log → runs_to (k a) s' b events') →
  runs_to (m ≫= k) s b (events ++ events').
Proof.
  intros (Hres & Hlog & Hcon) Hk. unfold runs_to, mbind, JS_bind in *.
  destruct (m s) as [r s1]. cbn in *. subst r.
  destruct (Hk s1 Hcon) as (Hres' & Hlog' & Hcon').
  repeat split; [assumption | | assumption].
  rewrite Hlog', Hlog, app_assoc. reflexivity.
Qed.

Lemma validate_rule_runs name value regex hasFailures s :
  console_log s = original_console_log →
  runs_to (validate_rule name value regex hasFailures) s
    (match ToString regex with
     | inl _ => true
     | inr pattern => if test_result pattern value then hasFailures else true
     end)
    (match ToString regex with
     | inl _ => [Error (msg_failed name)]
     | inr pattern =>
         [Debug (msg_validating name pattern);
          Called_validateSecret name value pattern;
          Info (String_trim (verdict name value pattern +:+ newline))]
         ++ (if test_result pattern value then [] else [Error (msg_failed name)])
     end).
Proof.
  intros Hcon. unfold runs_to, validate_rule, try_catch, lift, throw.
  unfold mbind, JS_bind, mret, JS_ret, core_debug, core_info, core_error.
  destruct (ToString regex) as [e|pattern].
  - cbn. repeat split; first [reflexivity | assumption].
  - cbn [emit intercept_console_log fst snd].
    rewrite validateSecret_runs.
    cbn [emit console_log_call restore_console_log read_validationOutput
         console_log log validationOutput fst snd String.append].
    change ("" +:+ ?x) with x.
    rewrite truthy_line. cbn [emit log console_log validationOutput fst snd].
    destruct (test_result pattern value); cbn;
      rewrite <- ?app_assoc; cbn; repeat split; reflexivity.
Qed.

Lemma rule_body_runs (w : World) rule hasFailures s :
  console_log s = original_console_log →
  runs_to (rule_body w rule.1 rule.2 hasFailures) s
    (if rule_fails w rule then true else hasFailures)
    (rule_events w rule).
Proof.
  destruct rule as [name regex]. cbn [fst snd].
  unfold rule_body, env_lookup, rule_fails, rule_events. cbn [fst snd].
  intros Hcon. unfold runs_to, mbind, JS_bind, mret, JS_ret, core_warning.
  cbn [emit fst snd].
  destruct (read_process_env (process_env w) name) as [value|]; cbn.
  - destruct (truthy_string value) eqn:Hvalue; cbn.
    + pose proof (validate_rule_runs name value regex hasFailures
        {| log := log s ++ [EnvRead name]; console_log := console_log s;
           validationOutput := validationOutput s |} Hcon) as (Hres & Hlog & Hcon').
      cbn in Hres, Hlog, Hcon'. rewrite Hres, Hlog, Hcon', <- app_assoc.
      destruct (ToString regex) as [e|pattern];
        [|destruct (test_result pattern value)]; repeat split; reflexivity.
    + rewrite <- app_assoc. repeat split; try reflexivity; assumption.
  - rewrite <- app_assoc. repeat split; try reflexivity; assumption.
Qed.

Lemma for_entries_runs (w : World) entries hasFailures s :
  console_log s = original_console_log →
  runs_to (for_entries w entries hasFailures) s
    (existsb (rule_fails w) entries || hasFailures)
    (flat_map (rule_events w) entries).
Proof.
  revert hasFailures s. induction entries as [|rule rest IH]; intros hasFailures s Hcon.
  - cbn. unfold runs_to, mret, JS_ret. cbn. rewrite app_nil_r. repeat split; assumption.
  - destruct rule as [name regex]. cbn [for_entries flat_map existsb].
    eapply runs_to_bind.
    + apply (rule_body_runs w (name, regex)). assumption.
    + intros s' Hcon'.
      replace (rule_fails w (name, regex) || existsb (rule_fails w) rest || hasFailures)
        with (existsb (rule_fails w) rest
              || (if rule_fails w (name, regex) then true else hasFailures))
        by (destruct (rule_fails w (name, regex)), (existsb (rule_fails w) rest),
              hasFailures; reflexivity).
      apply IH. assumption.
Qed.

Lemma Object_keys_length secrets entries :
  Object_entries secrets = inr entries →
  ∃ keys, Object_keys secrets = inr keys ∧ List.length keys = List.length entries.
Proof.
  intros Hent. unfold Object_keys. rewrite Hent.
  eexists. split; [reflexivity | apply length_map].
Qed.

Lemma Object_keys_throws secrets e :
  Object_entries secrets = inl e → Object_keys secrets = inl e.
Proof. intros Hent. unfold Object_keys. rewrite Hent. reflexivity. Qed.

(** The whole run, from a fresh process, emits [run_events]. *)
Lemma run_trace_events (w : World) : run_trace w = run_events w.
Proof.
  unfold run_trace, run, run_events, try_catch, lift, throw.
  unfold mbind, JS_bind, mret, JS_ret, core_debug, core_info, core_setFailed.
  destruct (core_getInput w "config-file") as [e|configFilePath]; [reflexivity|].
  cbn [emit initial_state log console_log validationOutput fst snd app].
  destruct (existsSync w (path_resolve w configFilePath)); [|reflexivity].
  cbn [negb].
  destruct (readFile w (path_resolve w configFilePath)) as [e|tomlContent];
    [reflexivity|].
  destruct (TOML_parse w tomlContent) as [e|secretsConfig]; [reflexivity|].
  cbn [truthy negb orb].
  destruct (truthy (get_property "secrets" secretsConfig)); [|reflexivity].
  cbn [negb].
  destruct (Object_entries (get_property "secrets" secretsConfig))
    as [e|entries] eqn:Hent.
  - rewrite (Object_keys_throws _ _ Hent). reflexivity.
  - destruct (Object_keys_length _ _ Hent) as (keys & -> & ->).
    cbn [log console_log validationOutput fst snd app].
    pose proof (for_entries_runs w entries false
      {| log := [Debug (msg_looking (path_resolve w configFilePath));
                 Info (msg_found (List.length entries))];
         console_log := original_console_log;
         validationOutput := "" |} eq_refl) as (Hres & Hlog & Hcon).
    rewrite orb_false_r in Hres.
    destruct (for_entries w entries false _) as [r s1]. cbn in Hres, Hlog, Hcon.
    subst r. destruct (existsb (rule_fails w) entries); cbn;
      rewrite Hlog; reflexivity.
Qed.

(** The command-line entry: either the usage message and exit code 1, or
    one call of [validateSecret] and the exit code of its result. *)
Lemma main_runs args s :
  main args s =
  let '(name, value, regex) := parse_args args "" "" "" in
  if truthy_string name && truthy_string value && truthy_string regex
  then (Exit (if test_result regex value then 0 else 1),
        (validateSecret name value regex s).2)
  else (Exit 1, (console_error usage s).2).
Proof.
  unfold main, try_catch, mbind, JS_bind, mret, JS_ret, process_exit.
  destruct (parse_args args "" "" "") as [[name value] regex].
  destruct (truthy_string name), (truthy_string value), (truthy_string regex);
    cbn [negb orb andb]; try reflexivity.
  rewrite validateSecret_runs. reflexivity.
Qed.

(** Induction along the argument loop, which advances by one or by two. *)
Lemma args_ind (P : list string → Prop) :
  P [] →
  (∀ arg, P [arg]) →
  (∀ arg next rest, P rest → P (next :: rest) → P (arg :: next :: rest)) →
  ∀ args, P args.
Proof.
  intros Hnil Hone Hstep args.
  enough (P args ∧ ∀ arg, P (arg :: args)) as [Hargs _] by exact Hargs.
  induction args as [|next rest [IHrest IHnext]].
  - split; [exact Hnil | exact Hone].
  - split; [apply IHnext |]. intros arg. apply Hstep; [exact IHrest | apply IHnext].
Qed.

Lemma parse_args_step arg next rest name value regex :
  parse_args (arg :: next :: rest) name value regex =
  if String.eqb arg "--name" then parse_args rest next value regex
  else if String.eqb arg "--value" then parse_args rest name next regex
  else if String.eqb arg "--regex" then parse_args rest name value next
  else parse_args (next :: rest) name value regex.
Proof. reflexivity. Qed.

Ltac parse_step IHrest IHnext Habsent :=
  rewrite parse_args_step;
  repeat match goal with
  | |- context [String.eqb ?a ?b] =>
      destruct (String.eqb_spec a b);
      [ subst; try (exfalso; apply Habsent; left; reflexivity) | ]
  end;
  first [ apply IHrest; intros Hin; apply Habsent; right; right; exact Hin
        | apply IHnext; intros Hin; apply Habsent; right; exact Hin ].

Lemma parse_args_no_name args name value regex :
  ¬ In "--name" args → (parse_args args name value regex).1.1 = name.
Proof.
  revert name value regex. induction args as [|arg|arg next rest IHrest IHnext]
    using args_ind; intros name value regex Habsent; try reflexivity.
  parse_step IHrest IHnext Habsent.
Qed.

Lemma parse_args_no_value args name value regex :
  ¬ In "--value" args → (parse_args args name value regex).1.2 = value.
Proof.
  revert name value regex. induction args as [|arg|arg next rest IHrest IHnext]
    using args_ind; intros name value regex Habsent; try reflexivity.
  parse_step IHrest IHnext Habsent.
Qed.

Lemma parse_args_no_regex args name value regex :
  ¬ In "--regex" args → (parse_args args name value regex).2 = regex.
Proof.
  revert name value regex. induction args as [|arg|arg next rest IHrest IHnext]
    using args_ind; intros name value regex Habsent; try reflexivity.
  parse_step IHrest IHnext Habsent.
Qed.

(** The three options, each followed by its value, are read as given. *)
Lemma parse_args_canonical name value regex :
  parse_args ["--name"; name; "--value"; value; "--regex"; regex] "" "" ""
  = (name, value, regex).
Proof. reflexivity. Qed.

End Running.

(** ** The validation engine *)

Section Engine_properties.
Context `{JSHost}.
Import ValidateSecrets.

(** C1. For every name, value and pattern, [validateSecret] returns
    normally, and it returns [true] exactly when the pattern compiles and
    the compiled expression's [test] of the value succeeds; pattern and
    value reach the host unchanged, so nothing is anchored.  When the
    pattern does not compile it returns [false], and throws nothing. *)
Theorem validateSecret_true_iff_test name value pattern s :
  (∃ matched, (validateSecret name value pattern s).1 = Normal matched ∧
     (matched = true ↔
      ∃ regex, RegExp_new pattern = inr regex ∧ RegExp_test regex value = true)) ∧
  (∀ e, RegExp_new pattern = inl e →
     (validateSecret name value pattern s).1 = Normal false).
Proof.
  rewrite validateSecret_runs. cbn [fst]. unfold test_result. split.
  - eexists. split; [reflexivity|].
    destruct (RegExp_new pattern) as [e|regex].
    + split; [discriminate | intros (regex & Hnew & _); discriminate].
    + split.
      * intros Htest. exists regex. split; [reflexivity | exact Htest].
      * intros (regex' & Hnew & Htest). injection Hnew as <-. exact Htest.
  - intros e ->. reflexivity.
Qed.

(** C5. When the pattern fails to compile, [validateSecret] catches the
    error: it returns [false] to its caller and its one message, through
    [console.log], is the warning sign, "Error validating secret", the
    quoted name, a colon and the compiler's message. *)
Theorem validateSecret_compile_error name value pattern e s :
  RegExp_new pattern = inl e →
  validateSecret name value pattern s =
  (Normal false,
   (console_log_call
      ("⚠️ Error validating secret '" +:+ name +:+ "': " +:+ message e)
      (emit (Called_validateSecret name value pattern) s).2).2).
Proof.
  intros Hnew. rewrite validateSecret_runs. unfold test_result, verdict.
  rewrite Hnew. reflexivity.
Qed.

Lemma msg_valid_not_error name name' detail :
  msg_valid name ≠ msg_error name' detail.
Proof. unfold msg_valid, msg_error. cbn. discriminate. Qed.

Lemma msg_valid_not_mismatch name name' pattern :
  msg_valid name ≠ msg_mismatch name' pattern.
Proof. unfold msg_valid, msg_mismatch. cbn. discriminate. Qed.

(** C9. Whenever [validateSecret] returns [true], the error kind of the
    outcome is [none]: the pattern compiled and the test succeeded, the
    one message printed is the message of validity, and that message is
    neither an error message nor a mismatch message. *)
Theorem matched_implies_no_error name value pattern s :
  (validateSecret name value pattern s).1 = Normal true →
  errorKind_of pattern value = none ∧
  (∃ regex, RegExp_new pattern = inr regex ∧ RegExp_test regex value = true) ∧
  (validateSecret name value pattern s).2 =
    (console_log_call ("✅ Secret '" +:+ name +:+ "' is valid.")
       (emit (Called_validateSecret name value pattern) s).2).2 ∧
  (∀ name' detail, msg_valid name ≠ msg_error name' detail) ∧
  (∀ name' pattern', msg_valid name ≠ msg_mismatch name' pattern').
Proof.
  rewrite validateSecret_runs. cbn [fst snd].
  unfold test_result, errorKind_of, verdict.
  destruct (RegExp_new pattern) as [e|regex]; [discriminate|].
  destruct (RegExp_test regex value) eqn:Htest; [|discriminate].
  intros _. repeat split.
  - exists regex. split; [reflexivity | exact Htest].
  - apply msg_valid_not_error.
  - apply msg_valid_not_mismatch.
Qed.

End Engine_properties.

(** The malformed pattern of the specification, on the sample host. *)
Lemma validateSecret_compile_error_witness :
  @ValidateSecrets.validateSecret Sample.literal_host
    "B" "any" "(unclosed[parenthesis" initial_state =
  (Normal false,
   {| log := [Called_validateSecret "B" "any" "(unclosed[parenthesis";
              Stdout "⚠️ Error validating secret 'B': Invalid regular expression: /(unclosed[parenthesis/: Unterminated group"];
      console_log := original_console_log;
      validationOutput := "" |}).
Proof.
  exact (@validateSecret_compile_error Sample.literal_host
           "B" "any" "(unclosed[parenthesis" _ initial_state eq_refl).
Defined.

Lemma matched_implies_no_error_witness :
  @errorKind_of Sample.literal_host "KEY-" "my-KEY-1234" = none.
Proof.
  exact (proj1 (@matched_implies_no_error Sample.literal_host
                  "API_KEY" "my-KEY-1234" "KEY-" initial_state eq_refl)).
Defined.

(** ** The command-line entry *)

Section Cli_properties.
Context `{JSHost}.
Import ValidateSecrets.

Lemma presence_test_fails name value regex :
  name = "" ∨ value = "" ∨ regex = "" →
  truthy_string name && truthy_string value && truthy_string regex = false.
Proof.
  intros [-> | [-> | ->]]; cbn [truthy_string andb];
    repeat match goal with
    | |- context [truthy_string ?x] => destruct (truthy_string x)
    end; reflexivity.
Qed.

(** C7. In single-check mode, when the argument loop has found a name, a
    value and a pattern (each non-empty, the entry's own test of
    presence), the process exits with code 0 if [validateSecret] reports
    a match and with code 1 if it reports none, so with the non-zero
    code 1 when the pattern does not compile.  When one of [--name],
    [--value], [--regex] is absent from the arguments, the process writes
    the usage message to stderr, and nothing else, and exits with code 1;
    that message begins with "Missing required arguments. Usage:" and
    ends with the form of the three options. *)
Theorem cli_exit_codes args name value regex s :
  parse_args args "" "" "" = (name, value, regex) →
  (truthy_string name = true → truthy_string value = true →
   truthy_string regex = true →
     (∀ matched, (validateSecret name value regex s).1 = Normal matched →
        (main args s).1 = Exit (if matched then 0 else 1)) ∧
     (∀ e, RegExp_new regex = inl e →
        (main args s).1 = Exit 1 ∧ (1 ≠ 0)%Z)) ∧
  (¬ In "--name" args ∨ ¬ In "--value" args ∨ ¬ In "--regex" args →
     (main args s).1 = Exit 1 ∧
     log (main args s).2 = log s ++ [Stderr usage]) ∧
  usage = "Missing required arguments. Usage:" +:+ " node validateSecrets.js "
          +:+ "--name NAME --value VALUE --regex PATTERN".
Proof.
  intros Hparse. rewrite main_runs, Hparse. split; [|split; [|reflexivity]].
  - intros -> -> ->. cbn [andb fst]. split.
    + intros matched. rewrite validateSecret_runs. cbn [fst].
      intros [= <-]. reflexivity.
    + intros e Hnew. unfold test_result. rewrite Hnew. split; [reflexivity | lia].
  - intros Habsent.
    rewrite presence_test_fails; [split; reflexivity|].
    destruct Habsent as [Habsent | [Habsent | Habsent]].
    + pose proof (parse_args_no_name args "" "" "" Habsent) as Hempty.
      rewrite Hparse in Hempty. left. exact Hempty.
    + pose proof (parse_args_no_value args "" "" "" Habsent) as Hempty.
      rewrite Hparse in Hempty. right; left. exact Hempty.
    + pose proof (parse_args_no_regex args "" "" "" Habsent) as Hempty.
      rewrite Hparse in Hempty. right; right. exact Hempty.
Qed.

(** C10. An argument given with the empty string as its value is treated
    like an absent one: whenever the name, the value or the pattern the
    argument loop leaves is empty, the process writes the usage message
    to stderr and exits with code 1, and [validateSecret] is never
    entered. *)
Theorem cli_empty_argument_is_missing args name value regex s :
  parse_args args "" "" "" = (name, value, regex) →
  name = "" ∨ value = "" ∨ regex = "" →
  main args s = (Exit 1, (console_error usage s).2) ∧
  log (main args s).2 = log s ++ [Stderr usage] ∧
  ∀ n v p, In (Called_validateSecret n v p) (log (main args s).2) →
           In (Called_validateSecret n v p) (log s).
Proof.
  intros Hparse Hempty. rewrite main_runs, Hparse.
  rewrite (presence_test_fails _ _ _ Hempty).
  repeat split. intros n v p Hin. cbn in Hin.
  apply in_app_or in Hin as [Hin | [Hin | []]]; [exact Hin | discriminate].
Qed.

End Cli_properties.

(** A matching value, given in full, on the sample host. *)
Lemma cli_exit_codes_witness :
  (@ValidateSecrets.main Sample.literal_host
     ["--name"; "API_KEY"; "--value"; "KEY-1234"; "--regex"; "KEY-"]
     initial_state).1 = Exit 0.
Proof.
  exact (proj1 (proj1 (@cli_exit_codes Sample.literal_host
           ["--name"; "API_KEY"; "--value"; "KEY-1234"; "--regex"; "KEY-"]
           "API_KEY" "KEY-1234" "KEY-" initial_state eq_refl)
           eq_refl eq_refl eq_refl) true eq_refl).
Defined.

(** [--value] given as the empty string, with a pattern the empty string
    would match. *)
Lemma cli_empty_argument_is_missing_witness :
  @ValidateSecrets.main Sample.literal_host
    ["--name"; "N"; "--value"; ""; "--regex"; "a"] initial_state
  = (Exit 1,
     {| log := [Stderr "Missing required arguments. Usage: node validateSecrets.js --name NAME --value VALUE --regex PATTERN"];
        console_log := original_console_log;
        validationOutput := "" |}).
Proof.
  exact (proj1 (@cli_empty_argument_is_missing Sample.literal_host
           ["--name"; "N"; "--value"; ""; "--regex"; "a"] "N" "" "a"
           initial_state eq_refl (or_intror (or_introl eq_refl)))).
Defined.

(** ** The orchestrator *)

Section Orchestrator_properties.
Context `{JSHost}.
Import ValidateSecrets Index.



Lemma rule_events_no_setFailed (w : World) rule :
  List.filter is_setFailed (rule_events w rule) = [].
Proof.
  unfold rule_events.
  destruct (read_process_env (process_env w) rule.1) as [value|]; [|reflexivity].
  destruct (truthy_string value); [|reflexivity]. cbn.
  destruct (ToString rule.2) as [e|pattern]; [reflexivity|]. cbn.
  destruct (test_result _ _); reflexivity.
Qed.

Lemma loop_events_no_setFailed (w : World) rules :
  List.filter is_setFailed (flat_map (rule_events w) rules) = [].
Proof.
  induction rules as [|rule rest IH]; [reflexivity|].
  cbn [flat_map]. rewrite List.filter_app, rule_events_no_setFailed, IH. reflexivity.
Qed.

Lemma filter_nil_not_in (l : list event) msg :
  List.filter is_setFailed l = [] → ¬ In (SetFailed msg) l.
Proof.
  intros Hnil Hin.
  assert (In (SetFailed msg) (List.filter is_setFailed l)) as Hin'
    by (apply filter_In; split; [exact Hin | reflexivity]).
  rewrite Hnil in Hin'. exact Hin'.
Qed.

(** Once the configuration is loaded and its [secrets] entry is a table,
    the run is the two opening messages, the rules in turn, and the
    closing signal. *)
Lemma run_loaded (w : World) doc rules :
  config_loaded w doc →
  get_property "secrets" doc = JObject rules →
  ∃ tomlFilePath,
    run_trace w =
    Debug (msg_looking tomlFilePath) :: Info (msg_found (List.length rules)) ::
    flat_map (rule_events w) rules ++ [final_event (existsb (rule_fails w) rules)].
Proof.
  intros (configFilePath & tomlContent & Hinput & Hexists & Hread & Hparse) Hsecrets.
  exists (path_resolve w configFilePath).
  rewrite run_trace_events. unfold run_events.
  rewrite Hinput. cbn zeta. rewrite Hexists, Hread, Hparse, Hsecrets. reflexivity.
Qed.

Lemma last_closing (a b : event) (l : list event) (e : event) :
  last (a :: b :: l ++ [e]) = Some e.
Proof.
  change (a :: b :: l ++ [e]) with ((a :: b :: l) ++ [e]). apply last_snoc.
Qed.


Lemma called_in_rule_events (w : World) rule name value pattern :
  In (Called_validateSecret name value pattern) (rule_events w rule) →
  name = rule.1 ∧
  read_process_env (process_env w) name = Some value ∧
  truthy_string value = true ∧
  ToString rule.2 = inr pattern.
Proof.
  unfold rule_events. intros [Hin | Hin]; [discriminate|].
  destruct (read_process_env (process_env w) rule.1) as [value'|] eqn:Henv;
    [|destruct Hin as [Hin | []]; discriminate].
  destruct (truthy_string value') eqn:Htruthy; cbn in Hin;
    [|destruct Hin as [Hin | []]; discriminate].
  destruct (ToString rule.2) as [e|pattern']; cbn in Hin;
    [destruct Hin as [Hin | []]; discriminate|].
  destruct Hin as [Hin | [Hin | [Hin | Hin]]]; try discriminate.
  - injection Hin as <- <- <-. repeat split; assumption.
  - destruct (test_result _ _); cbn in Hin; [destruct Hin|].
    destruct Hin as [Hin | []]; discriminate.
Qed.

(** A name that is not set, or set to the empty string, reads as a
    missing value unless [Object.prototype] has a member of that name. *)
Lemma absent_reads_missing (w : World) name :
  absent_or_empty w name → Object_prototype name = None → missing_value w name.
Proof.
  unfold absent_or_empty, missing_value, read_process_env, read_plain.
  intros Habsent Hown. destruct (JsObject.is_array_index name); [left; reflexivity|].
  destruct Habsent as [-> | ->]; [left; exact Hown | right; reflexivity].
Qed.

Lemma missing_value_fails (w : World) name regex :
  missing_value w name → rule_fails w (name, regex) = true.
Proof.
  unfold missing_value, rule_fails. cbn [fst]. intros [-> | ->]; reflexivity.
Qed.

Lemma warning_in_rule_events (w : World) name regex :
  missing_value w name →
  In (Warning (msg_not_found name)) (rule_events w (name, regex)).
Proof.
  unfold missing_value, rule_events. cbn [fst snd].
  intros [-> | ->]; right; left; reflexivity.
Qed.

(** C3, as the orchestrator has it.  For every rule whose name is absent
    from the environment or bound to the empty string, and is not the
    name of a member that [process.env] inherits from [Object.prototype],
    the run warns that the secret was not found in the environment (the
    name between double quotes), records the failure, so that it ends
    with [setFailed], and never enters [validateSecret] for that name. *)
Theorem missing_secret_warns_and_fails (w : World) doc rules name regex :
  config_loaded w doc →
  get_property "secrets" doc = JObject rules →
  In (name, regex) rules →
  absent_or_empty w name →
  Object_prototype name = None →
  In (Warning ("Secret " +:+ dquote +:+ name +:+ dquote
               +:+ " not found in environment.")) (run_trace w) ∧
  In (SetFailed "One or more secrets failed validation") (run_trace w) ∧
  ∀ value pattern, ¬ In (Called_validateSecret name value pattern) (run_trace w).
Proof.
  intros Hloaded Hsecrets Hrule Habsent Hown.
  pose proof (absent_reads_missing w name Habsent Hown) as Hmissing.
  destruct (run_loaded w doc rules Hloaded Hsecrets) as (tomlFilePath & ->).
  split; [|split].
  - right; right. apply in_or_app. left. apply in_flat_map.
    exists (name, regex). split; [exact Hrule | apply warning_in_rule_events, Hmissing].
  - assert (existsb (rule_fails w) rules = true) as ->.
    { apply existsb_exists. exists (name, regex).
      split; [exact Hrule | apply missing_value_fails, Hmissing]. }
    right; right. apply in_or_app. right. left. reflexivity.
  - intros value pattern [Hin | [Hin | Hin]]; try discriminate.
    apply in_app_or in Hin as [Hin | [Hin | []]].
    + apply in_flat_map in Hin as (rule & _ & Hin).
      apply called_in_rule_events in Hin as (_ & Henv & Htruthy & _).
      destruct Hmissing as [Hnone | Hempty]; rewrite Henv in *.
      * discriminate.
      * injection Hempty as ->. discriminate.
    + destruct (existsb _ _); discriminate.
Qed.

Lemma truthy_has_entries (v : jsval) :
  truthy v = true → ∃ entries, Object_entries v = inr entries.
Proof. destruct v; cbn; try discriminate; eauto. Qed.

(** C4, as the loader has it.  The configuration is refused, with the
    message that the [secrets] section is missing, exactly when the parsed
    document has no [secrets] key or binds it to a falsy value ([false],
    [0] or the empty string); the run is then that one failure signal
    after the opening debug line, and no rule is evaluated. *)
Theorem invalid_shape_iff_secrets_falsy (w : World) doc :
  config_loaded w doc →
  (get_property "secrets" doc = JUndefined ∨
   truthy (get_property "secrets" doc) = false →
   ∃ tomlFilePath,
     run_trace w =
     [Debug (msg_looking tomlFilePath);
      SetFailed ("Invalid configuration file format. Missing " +:+ dquote
                 +:+ "secrets" +:+ dquote +:+ " section.")]) ∧
  (In (SetFailed msg_invalid_format) (run_trace w) →
   truthy (get_property "secrets" doc) = false).
Proof.
  intros (configFilePath & tomlContent & Hinput & Hexists & Hread & Hparse).
  rewrite run_trace_events. unfold run_events.
  rewrite Hinput. cbn zeta. rewrite Hexists, Hread, Hparse. cbn [negb].
  split.
  - intros Hfalsy. exists (path_resolve w configFilePath).
    assert (truthy (get_property "secrets" doc) = false) as ->
      by (destruct Hfalsy as [-> | Hfalsy]; [reflexivity | exact Hfalsy]).
    reflexivity.
  - destruct (truthy (get_property "secrets" doc)) eqn:Htruthy; [|reflexivity].
    destruct (truthy_has_entries _ Htruthy) as (entries & ->). cbn [negb].
    intros [Hin | [Hin | Hin]]; try discriminate.
    apply in_app_or in Hin as [Hin | [Hin | []]].
    + exfalso. revert Hin. apply filter_nil_not_in, loop_events_no_setFailed.
    + destruct (existsb _ _); discriminate.
Qed.

(** C6. If the configuration file does not exist at the resolved path, or
    exists and parses but has no [secrets] section, the run issues exactly
    one [setFailed] and processes no rule: it reads no environment
    variable, never enters the validation engine and sends no message of
    a rule. *)
Theorem fatal_config_errors_short_circuit (w : World) :
  config_not_found w ∨
  (∃ doc, config_loaded w doc ∧ get_property "secrets" doc = JUndefined) →
  List.length (List.filter is_setFailed (run_trace w)) = 1%nat ∧
  Forall (λ e, per_rule_event e = false) (run_trace w).
Proof.
  rewrite run_trace_events. unfold run_events.
  intros [(configFilePath & Hinput & Hexists)
         | (doc & (configFilePath & tomlContent & Hinput & Hexists & Hread & Hparse)
            & Hsecrets)];
    rewrite Hinput; cbn zeta; rewrite Hexists.
  - cbn. split; [reflexivity | repeat constructor].
  - rewrite Hread, Hparse, Hsecrets. cbn.
    split; [reflexivity | repeat constructor].
Qed.

Lemma existsb_Permutation {A} (f : A → bool) (l l' : list A) :
  Permutation l l' → existsb f l = existsb f l'.
Proof.
  induction 1 as [|x l l' _ IH|x y l|l l' l'' _ IH _ IH']; cbn.
  - reflexivity.
  - rewrite IH. reflexivity.
  - destruct (f x), (f y); reflexivity.
  - rewrite IH. exact IH'.
Qed.

Lemma rule_fails_same_env (w w' : World) rule :
  process_env w = process_env w' → rule_fails w rule = rule_fails w' rule.
Proof. unfold rule_fails. intros ->. reflexivity. Qed.

Lemma existsb_rule_fails_same_env (w w' : World) rules :
  process_env w = process_env w' →
  existsb (rule_fails w) rules = existsb (rule_fails w') rules.
Proof.
  intros Henv. induction rules as [|rule rest IH]; [reflexivity|].
  cbn. rewrite IH, (rule_fails_same_env w w' rule Henv). reflexivity.
Qed.

(** The overall signals of a loaded run depend on the rules through
    [existsb] alone. *)
Lemma aggregate_outcome_loaded (w : World) tomlFilePath rules :
  aggregate_outcome
    (Debug (msg_looking tomlFilePath) :: Info (msg_found (List.length rules)) ::
     flat_map (rule_events w) rules ++ [final_event (existsb (rule_fails w) rules)])
  = if existsb (rule_fails w) rules
    then ([SetFailed "One or more secrets failed validation"], false)
    else ([], true).
Proof.
  unfold aggregate_outcome, closes_with_success. rewrite last_closing.
  cbn [List.filter is_setFailed].
  rewrite List.filter_app, loop_events_no_setFailed.
  destruct (existsb (rule_fails w) rules); reflexivity.
Qed.

Lemma same_rules_cases (v v' : jsval) :
  same_rules v v' →
  v = v' ∨ ∃ rules rules', v = JObject rules ∧ v' = JObject rules'
                           ∧ Permutation rules rules'.
Proof.
  destruct v, v'; cbn; intros Hsame; try (left; exact Hsame).
  right. eauto.
Qed.

(** C8. For every configuration and environment, the overall outcome of
    a run, that is its calls of [setFailed] and whether it closes with
    the message of success, is the same for every order in which the
    parsed configuration lists its rules. *)
Theorem aggregate_outcome_order_independent (w w' : World) :
  same_up_to_rule_order w w' →
  aggregate_outcome (run_trace w) = aggregate_outcome (run_trace w').
Proof.
  intros (Hinput & Hresolve & Hexists & Hread & Henv & Hparse).
  rewrite !run_trace_events. unfold run_events.
  rewrite <- Hinput, <- Hresolve, <- Hexists, <- Hread.
  destruct (core_getInput w "config-file") as [e|configFilePath]; [reflexivity|].
  cbn zeta.
  destruct (existsSync w (path_resolve w configFilePath)); [|reflexivity].
  cbn [negb].
  destruct (readFile w (path_resolve w configFilePath)) as [e|tomlContent];
    [reflexivity|].
  specialize (Hparse tomlContent).
  destruct (TOML_parse w tomlContent) as [e|doc],
           (TOML_parse w' tomlContent) as [e'|doc']; try contradiction.
  - rewrite Hparse. reflexivity.
  - apply same_rules_cases in Hparse
      as [<- | (rules & rules' & -> & -> & Hperm)].
    + destruct (truthy (get_property "secrets" doc)) eqn:Htruthy; [|reflexivity].
      destruct (truthy_has_entries _ Htruthy) as (entries & ->). cbn [negb].
      rewrite !aggregate_outcome_loaded.
      rewrite (existsb_rule_fails_same_env w w' _ Henv). reflexivity.
    + cbn [truthy negb Object_entries]. rewrite !aggregate_outcome_loaded.
      rewrite (existsb_rule_fails_same_env w w' _ Henv).
      rewrite (existsb_Permutation _ _ _ Hperm). reflexivity.
Qed.

End Orchestrator_properties.

(** ** The properties on the sample host *)

Section Samples.
Import Sample ValidateSecrets Index.
Existing Instance literal_host.

Lemma sample_loaded doc env : config_loaded (world (inr doc) env) doc.
Proof.
  exists ".github/secret-validation.toml", "[secrets]".
  repeat split; reflexivity.
Qed.


(** The message of the claim is nowhere in the run of a configuration
    with a rule for a secret that the environment lacks; and for a rule
    named [toString], which the environment lacks as well, the read gives
    the inherited function and the engine is entered. *)
Lemma missing_secret_message_counterexample :
  good_env !! "MISSING_SECRET" = None ∧
  In ("MISSING_SECRET", JString "x")
     [("API_KEY", JString "KEY-"); ("MISSING_SECRET", JString "x")] ∧
  run_trace (world (inr with_missing_rule) good_env) =
    [Debug "Looking for TOML configuration at: /repo/.github/secret-validation.toml";
     Info "Found 2 secrets to validate";
     EnvRead "API_KEY";
     Debug "Validating secret: API_KEY with pattern: KEY-";
     Called_validateSecret "API_KEY" "KEY-1234" "KEY-";
     Info "✅ Secret 'API_KEY' is valid.";
     EnvRead "MISSING_SECRET";
     Warning ("Secret " +:+ dquote +:+ "MISSING_SECRET" +:+ dquote
              +:+ " not found in environment.");
     SetFailed "One or more secrets failed validation"] ∧
  (¬ ∃ e, In e (run_trace (world (inr with_missing_rule) good_env)) ∧
          event_text e = "❌ Secret 'MISSING_SECRET' is missing.") ∧
  good_env !! "toString" = None ∧
  run_trace (world (inr with_inherited_rule) good_env) =
    [Debug "Looking for TOML configuration at: /repo/.github/secret-validation.toml";
     Info "Found 1 secrets to validate";
     EnvRead "toString";
     Debug "Validating secret: toString with pattern: native";
     Called_validateSecret "toString" "function toString() { [native code] }"
                           "native";
     Info "✅ Secret 'toString' is valid.";
     Info "All secrets validated successfully"].
Proof.
  assert (run_trace (world (inr with_missing_rule) good_env) =
    [Debug "Looking for TOML configuration at: /repo/.github/secret-validation.toml";
     Info "Found 2 secrets to validate";
     EnvRead "API_KEY";
     Debug "Validating secret: API_KEY with pattern: KEY-";
     Called_validateSecret "API_KEY" "KEY-1234" "KEY-";
     Info "✅ Secret 'API_KEY' is valid.";
     EnvRead "MISSING_SECRET";
     Warning ("Secret " +:+ dquote +:+ "MISSING_SECRET" +:+ dquote
              +:+ " not found in environment.");
     SetFailed "One or more secrets failed validation"]) as Htrace
    by (vm_compute; reflexivity).
  split; [vm_compute; reflexivity|]. split; [right; left; reflexivity|].
  split; [exact Htrace|].
  split; [|split; vm_compute; reflexivity].
  rewrite Htrace. intros (e & Hin & Htext).
  repeat (destruct Hin as [<- | Hin]; [cbn in Htext; discriminate|]).
  exact Hin.
Qed.

Lemma missing_secret_warns_and_fails_witness :
  In (Warning ("Secret " +:+ dquote +:+ "MISSING_SECRET" +:+ dquote
               +:+ " not found in environment."))
     (run_trace (world (inr with_missing_rule) good_env)) ∧
  In (SetFailed "One or more secrets failed validation")
     (run_trace (world (inr with_missing_rule) good_env)) ∧
  ∀ value pattern,
    ¬ In (Called_validateSecret "MISSING_SECRET" value pattern)
         (run_trace (world (inr with_missing_rule) good_env)).
Proof.
  apply (missing_secret_warns_and_fails (world (inr with_missing_rule) good_env)
           with_missing_rule _ "MISSING_SECRET" (JString "x") (sample_loaded _ _) eq_refl).
  - right; left; reflexivity.
  - left. vm_compute. reflexivity.
  - reflexivity.
Defined.

(** [secrets = true] is present and is no table of patterns, and the run
    signals success. *)
Lemma truthy_secrets_accepted_counterexample :
  get_property "secrets" secrets_flag = JBoolean true ∧
  ¬ string_mapping (JBoolean true) ∧
  run_trace (world (inr secrets_flag) good_env) =
    [Debug "Looking for TOML configuration at: /repo/.github/secret-validation.toml";
     Info "Found 0 secrets to validate";
     Info "All secrets validated successfully"].
Proof.
  split; [reflexivity|]. split; [|vm_compute; reflexivity].
  intros (rules & Heq & _). discriminate.
Qed.

Lemma invalid_shape_iff_secrets_falsy_witness :
  ∃ tomlFilePath,
    run_trace (world (inr secrets_off) good_env) =
    [Debug (msg_looking tomlFilePath);
     SetFailed ("Invalid configuration file format. Missing " +:+ dquote
                +:+ "secrets" +:+ dquote +:+ " section.")].
Proof.
  exact (proj1 (invalid_shape_iff_secrets_falsy (world (inr secrets_off) good_env)
                  secrets_off (sample_loaded _ _)) (or_intror eq_refl)).
Defined.

Lemma fatal_config_errors_short_circuit_witness :
  List.length (List.filter is_setFailed (run_trace (world (inr no_secrets) good_env)))
    = 1%nat ∧
  Forall (λ e, per_rule_event e = false) (run_trace (world (inr no_secrets) good_env)).
Proof.
  apply (fatal_config_errors_short_circuit (world (inr no_secrets) good_env)).
  right. exists no_secrets. split; [apply sample_loaded | reflexivity].
Defined.

Lemma aggregate_outcome_order_independent_witness :
  aggregate_outcome (run_trace (world (inr two_rules) bad_env)) =
  aggregate_outcome (run_trace (world (inr two_rules_swapped) bad_env)).
Proof.
  apply (aggregate_outcome_order_independent
           (world (inr two_rules) bad_env) (world (inr two_rules_swapped) bad_env)).
  repeat split; try reflexivity.
  intros text. cbn. apply perm_swap.
Defined.

End Samples.

(** ** Further properties of the orchestrator *)

Section More_orchestrator.
Context `{JSHost}.
Import ValidateSecrets Index.

Lemma emit_runs e s :
  console_log s = original_console_log → runs_to (emit e) s () [e].
Proof. intros Hcon. repeat split; assumption. Qed.

(** From any state in which [console.log] is the original, the run
    finishes normally, has emitted [run_events], and leaves [console.log]
    as it found it. *)
Lemma run_runs (w : World) s :
  console_log s = original_console_log → runs_to (run w) s () (run_events w).
Proof.
  intros Hcon.
  unfold runs_to, run, run_events, try_catch, lift, throw.
  unfold mbind, JS_bind, mret, JS_ret, core_debug, core_info, core_setFailed.
  destruct (core_getInput w "config-file") as [e|configFilePath];
    [repeat split; first [reflexivity | assumption]|].
  cbn [emit log console_log validationOutput fst snd].
  destruct (existsSync w (path_resolve w configFilePath)); cbn [negb];
    [|cbn; rewrite <- ?app_assoc; repeat split; first [reflexivity | assumption]].
  destruct (readFile w (path_resolve w configFilePath)) as [e|tomlContent];
    [cbn; rewrite <- ?app_assoc; repeat split; first [reflexivity | assumption]|].
  destruct (TOML_parse w tomlContent) as [e|secretsConfig];
    [cbn; rewrite <- ?app_assoc; repeat split; first [reflexivity | assumption]|].
  cbn [truthy negb orb].
  destruct (truthy (get_property "secrets" secretsConfig)); cbn [negb];
    [|cbn; rewrite <- ?app_assoc; repeat split; first [reflexivity | assumption]].
  destruct (Object_entries (get_property "secrets" secretsConfig))
    as [e|entries] eqn:Hent.
  - rewrite (Object_keys_throws _ _ Hent). cbn.
    rewrite <- ?app_assoc; repeat split; first [reflexivity | assumption].
  - destruct (Object_keys_length _ _ Hent) as (keys & -> & ->).
    cbn [log console_log validationOutput fst snd].
    pose proof (for_entries_runs w entries false
      {| log := (log s ++ [Debug (msg_looking (path_resolve w configFilePath))])
                ++ [Info (msg_found (List.length entries))];
         console_log := console_log s;
         validationOutput := validationOutput s |} Hcon) as (Hres & Hlog & Hcon').
    rewrite orb_false_r in Hres.
    destruct (for_entries w entries false _) as [r s1]. cbn in Hres, Hlog, Hcon'.
    subst r. destruct (existsb (rule_fails w) entries); cbn;
      rewrite Hlog, <- ?app_assoc; repeat split; first [reflexivity | assumption].
Qed.

(** A run is either one failure signal after at most the opening debug
    line, or the two opening messages, the rules and the closing signal. *)
Lemma run_events_cases (w : World) :
  (∃ pre msg, run_events w = pre ++ [SetFailed msg] ∧
              (pre = [] ∨ ∃ m, pre = [Debug m])) ∨
  (∃ tomlFilePath entries,
     run_events w =
     Debug (msg_looking tomlFilePath) :: Info (msg_found (List.length entries)) ::
     flat_map (rule_events w) entries
     ++ [final_event (existsb (rule_fails w) entries)]).
Proof.
  unfold run_events.
  destruct (core_getInput w "config-file") as [e|configFilePath];
    [left; exists [], (msg_unexpected e); split; [reflexivity | left; reflexivity]|].
  cbn zeta.
  destruct (existsSync w (path_resolve w configFilePath)); cbn [negb];
    [|left; eexists [_], _; split; [reflexivity | right; eexists; reflexivity]].
  destruct (readFile w (path_resolve w configFilePath)) as [e|tomlContent];
    [left; eexists [_], _; split; [reflexivity | right; eexists; reflexivity]|].
  destruct (TOML_parse w tomlContent) as [e|secretsConfig];
    [left; eexists [_], _; split; [reflexivity | right; eexists; reflexivity]|].
  destruct (truthy (get_property "secrets" secretsConfig)) eqn:Htruthy; cbn [negb];
    [|left; eexists [_], _; split; [reflexivity | right; eexists; reflexivity]].
  destruct (truthy_has_entries _ Htruthy) as (entries & ->).
  right. eexists _, entries. reflexivity.
Qed.

Lemma rule_events_no_stdout (w : World) rule :
  Forall (λ e, is_stdout e = false) (rule_events w rule).
Proof.
  unfold rule_events.
  destruct (read_process_env (process_env w) rule.1) as [value|];
    [|repeat constructor].
  destruct (truthy_string value); [|repeat constructor]. cbn.
  destruct (ToString rule.2) as [e|pattern]; [repeat constructor|]. cbn.
  destruct (test_result _ _); repeat constructor.
Qed.

Lemma env_reads_rule_events (w : World) rule :
  env_reads (rule_events w rule) = [rule.1].
Proof.
  unfold rule_events.
  destruct (read_process_env (process_env w) rule.1) as [value|]; [|reflexivity].
  destruct (truthy_string value); [|reflexivity]. cbn.
  destruct (ToString rule.2) as [e|pattern]; [reflexivity|]. cbn.
  destruct (test_result _ _); reflexivity.
Qed.

Lemma engine_calls_rule_events (w : World) rule :
  engine_calls (rule_events w rule)
  = match present_call (process_env w) rule with
    | Some call => [call]
    | None => []
    end.
Proof.
  unfold rule_events, present_call.
  destruct (read_process_env (process_env w) rule.1) as [value|]; [|reflexivity].
  destruct (truthy_string value); [|reflexivity]. cbn.
  destruct (ToString rule.2) as [e|pattern]; [reflexivity|]. cbn.
  destruct (test_result _ _); reflexivity.
Qed.

Lemma env_reads_app l l' : env_reads (l ++ l') = env_reads l ++ env_reads l'.
Proof. apply omap_app. Qed.

Lemma engine_calls_app l l' :
  engine_calls (l ++ l') = engine_calls l ++ engine_calls l'.
Proof. apply omap_app. Qed.

Lemma env_reads_loop (w : World) rules :
  env_reads (flat_map (rule_events w) rules) = List.map fst rules.
Proof.
  induction rules as [|rule rest IH]; [reflexivity|].
  cbn [flat_map List.map]. rewrite env_reads_app, env_reads_rule_events, IH.
  reflexivity.
Qed.

Lemma engine_calls_loop (w : World) rules :
  engine_calls (flat_map (rule_events w) rules)
  = omap (present_call (process_env w)) rules.
Proof.
  induction rules as [|rule rest IH]; [reflexivity|].
  cbn [flat_map omap list_omap].
  rewrite engine_calls_app, engine_calls_rule_events, IH.
  destruct (present_call (process_env w) rule); reflexivity.
Qed.

Lemma env_reads_final b : env_reads [final_event b] = [].
Proof. destruct b; reflexivity. Qed.

Lemma engine_calls_final b : engine_calls [final_event b] = [].
Proof. destruct b; reflexivity. Qed.

(** X1. Started with the original [console.log], [run] always finishes
    normally: it neither throws nor ends the process, whatever the input,
    the file system, the parser and the environment do, and when it is
    done [console.log] is the original function again. *)
Theorem run_completes_and_restores (w : World) s :
  console_log s = original_console_log →
  (run w s).1 = Normal () ∧ console_log (run w s).2 = original_console_log.
Proof.
  intros Hcon. destruct (run_runs w s Hcon) as (Hres & _ & Hcon').
  split; assumption.
Qed.

(** X2. A run calls [core.setFailed] at most once, and a call of
    [setFailed] is the last thing the run does. *)
Theorem run_signals_failure_at_most_once (w : World) :
  List.filter is_setFailed (run_trace w) = [] ∨
  ∃ msg, List.filter is_setFailed (run_trace w) = [SetFailed msg] ∧
         last (run_trace w) = Some (SetFailed msg).
Proof.
  rewrite run_trace_events.
  destruct (run_events_cases w)
    as [(pre & msg & -> & Hpre) | (tomlFilePath & entries & ->)].
  - right. exists msg. rewrite last_snoc.
    destruct Hpre as [-> | (m & ->)]; split; reflexivity.
  - cbn [List.filter is_setFailed].
    rewrite List.filter_app, loop_events_no_setFailed, last_closing.
    destruct (existsb (rule_fails w) entries); cbn.
    + right. eexists. split; reflexivity.
    + left. reflexivity.
Qed.

(** X3. When reading the input [config-file], reading the file or
    parsing it throws, the run reports "Secret validation failed: " and
    the message of the error through its one call of [setFailed], and
    processes no rule. *)
Theorem load_errors_are_reported (w : World) e :
  config_load_throws w e →
  List.filter is_setFailed (run_trace w)
    = [SetFailed ("Secret validation failed: " +:+ message e)] ∧
  Forall (λ ev, per_rule_event ev = false) (run_trace w).
Proof.
  rewrite run_trace_events. unfold run_events.
  intros [Hinput | (configFilePath & Hinput & Hexists
                    & [Hread | (tomlContent & Hread & Hparse)])];
    rewrite Hinput; cbn zeta; rewrite ?Hexists, ?Hread, ?Hparse; cbn;
    (split; [reflexivity | repeat constructor]).
Qed.

(** X4. Once the configuration is loaded, every rule of the table is
    looked up in the environment exactly once and in the order of the
    table: a rule that fails does not stop the rules after it. *)
Theorem every_rule_is_looked_up (w : World) doc rules :
  config_loaded w doc →
  get_property "secrets" doc = JObject rules →
  env_reads (run_trace w) = List.map fst rules.
Proof.
  intros Hloaded Hsecrets.
  destruct (run_loaded w doc rules Hloaded Hsecrets) as (tomlFilePath & ->).
  change (Debug ?a :: Info ?b :: ?l) with ([Debug a; Info b] ++ l).
  rewrite !env_reads_app, env_reads_final, env_reads_loop, app_nil_r.
  reflexivity.
Qed.

(** X5. The validation engine is entered exactly once for every rule
    whose read of [process.env[name]] gives a value that is not empty
    (a variable that is set, unless its name is an array index, or a
    member inherited from [Object.prototype]) and whose pattern can be
    coerced to a string (it is no table), in the order of the table, with
    the name, the value read and the string of the pattern; and it is
    entered for nothing else. *)
Theorem engine_called_once_per_present_rule (w : World) doc rules :
  config_loaded w doc →
  get_property "secrets" doc = JObject rules →
  engine_calls (run_trace w) = omap (present_call (process_env w)) rules.
Proof.
  intros Hloaded Hsecrets.
  destruct (run_loaded w doc rules Hloaded Hsecrets) as (tomlFilePath & ->).
  change (Debug ?a :: Info ?b :: ?l) with ([Debug a; Info b] ++ l).
  rewrite !engine_calls_app, engine_calls_final, engine_calls_loop, app_nil_r.
  reflexivity.
Qed.

Lemma captured_line name value pattern l :
  validationOutput
    (validateSecret name value pattern
       {| log := l; console_log := capture_console_log; validationOutput := "" |}).2
  = verdict name value pattern +:+ newline.
Proof. rewrite validateSecret_runs. reflexivity. Qed.

Lemma forwarded_in_rule_events (w : World) rule name value pattern :
  In (Called_validateSecret name value pattern) (rule_events w rule) →
  In (Info (String_trim (verdict name value pattern +:+ newline)))
     (rule_events w rule).
Proof.
  unfold rule_events. intros [Hin | Hin]; [discriminate|]. right.
  destruct (read_process_env (process_env w) rule.1) as [value'|];
    [|destruct Hin as [Hin | []]; discriminate].
  destruct (truthy_string value'); cbn in Hin |- *;
    [|destruct Hin as [Hin | []]; discriminate].
  destruct (ToString rule.2) as [e|pattern']; cbn in Hin |- *;
    [destruct Hin as [Hin | []]; discriminate|].
  destruct Hin as [Hin | [Hin | [Hin | Hin]]]; try discriminate.
  - injection Hin as <- <- <-. right; right; left. reflexivity.
  - destruct (test_result _ _); cbn in Hin; [destruct Hin|].
    destruct Hin as [Hin | []]; discriminate.
Qed.

(** X6. During a run the original [console.log] is never called: the
    run replaces it before it enters [validateSecret], so the line the
    engine prints is captured, and for every call of the engine the run
    hands that line, trimmed, to [core.info]. *)
Theorem engine_output_is_intercepted (w : World) :
  Forall (λ e, is_stdout e = false) (run_trace w) ∧
  ∀ name value pattern,
    In (Called_validateSecret name value pattern) (run_trace w) →
    In (Info (String_trim (validationOutput
          (validateSecret name value pattern
             {| log := []; console_log := capture_console_log;
                validationOutput := "" |}).2)))
       (run_trace w).
Proof.
  rewrite run_trace_events.
  destruct (run_events_cases w)
    as [(pre & msg & -> & Hpre) | (tomlFilePath & entries & ->)].
  - split.
    + destruct Hpre as [-> | (m & ->)]; repeat constructor.
    + intros name value pattern Hin. exfalso.
      destruct Hpre as [-> | (m & ->)]; cbn in Hin;
        repeat (destruct Hin as [Hin | Hin]; [discriminate|]); exact Hin.
  - split.
    + do 2 (constructor; [reflexivity|]). apply Forall_app. split.
      * apply List.Forall_forall. intros e Hin.
        apply in_flat_map in Hin as (rule & _ & Hin).
        revert e Hin. apply List.Forall_forall, rule_events_no_stdout.
      * destruct (existsb _ _); repeat constructor.
    + intros name value pattern [Hin | [Hin | Hin]]; try discriminate.
      rewrite captured_line. right; right. apply in_or_app.
      apply in_app_or in Hin as [Hin | [Hin | []]].
      * left. apply in_flat_map in Hin as (rule & Hrule & Hin).
        apply in_flat_map. exists rule.
        split; [exact Hrule | apply forwarded_in_rule_events, Hin].
      * destruct (existsb _ _); discriminate.
Qed.

Lemma msg_failed_inj name name' : msg_failed name = msg_failed name' → name = name'.
Proof. unfold msg_failed. cbn. intros Heq. injection Heq as Heq. exact Heq. Qed.

Lemma error_in_rule_events (w : World) rule msg :
  In (Error msg) (rule_events w rule) ↔
  msg = msg_failed rule.1 ∧
  ∃ value, read_process_env (process_env w) rule.1 = Some value ∧
           truthy_string value = true ∧
           ((∃ e, ToString rule.2 = inl e) ∨
            ∃ pattern, ToString rule.2 = inr pattern ∧
                       test_result pattern value = false).
Proof.
  unfold rule_events. split.
  - intros [Hin | Hin]; [discriminate|].
    destruct (read_process_env (process_env w) rule.1) as [value|];
      [|destruct Hin as [Hin | []]; discriminate].
    destruct (truthy_string value) eqn:Htruthy; cbn in Hin;
      [|destruct Hin as [Hin | []]; discriminate].
    destruct (ToString rule.2) as [e|pattern]; cbn in Hin.
    + destruct Hin as [Hin | []]. injection Hin as <-.
      split; [reflexivity|]. exists value. repeat split; [assumption|].
      left. eexists. reflexivity.
    + destruct Hin as [Hin | [Hin | [Hin | Hin]]]; try discriminate.
      destruct (test_result _ _) eqn:Htest; cbn in Hin; [destruct Hin|].
      destruct Hin as [Hin | []]. injection Hin as <-.
      split; [reflexivity|]. exists value. repeat split; [assumption|].
      right. exists pattern. split; [reflexivity | exact Htest].
  - intros (-> & value & -> & -> & [(e & ->) | (pattern & -> & Htest)]); right; cbn.
    + left. reflexivity.
    + rewrite Htest. right; right; right. left. reflexivity.
Qed.

Lemma truthy_string_nonempty value : truthy_string value = true ↔ value ≠ "".
Proof. destruct value; cbn; split; congruence. Qed.

(** X7. Once the configuration is loaded, the annotation "Validation
    failed for secret: " followed by a name is sent through [core.error]
    exactly when the table has a rule of that name whose read of
    [process.env[name]] gives a value that is not empty and either the
    pattern cannot be coerced to a string (it is a table: the inner
    [catch] then reports the rule without the engine being entered) or
    [validateSecret] returns [false] on the value; a secret whose value
    is missing gets the warning, and no such annotation. *)
Theorem error_annotation_iff (w : World) doc rules name :
  config_loaded w doc →
  get_property "secrets" doc = JObject rules →
  (In (Error ("Validation failed for secret: " +:+ name)) (run_trace w) ↔
   ∃ regex value,
     In (name, regex) rules ∧
     read_process_env (process_env w) name = Some value ∧ value ≠ "" ∧
     ((∃ e, ToString regex = inl e) ∨
      ∃ pattern, ToString regex = inr pattern ∧
        ∀ s, (validateSecret name value pattern s).1 = Normal false)).
Proof.
  intros Hloaded Hsecrets.
  destruct (run_loaded w doc rules Hloaded Hsecrets) as (tomlFilePath & ->).
  change ("Validation failed for secret: " +:+ name) with (msg_failed name).
  split.
  - intros [Hin | [Hin | Hin]]; try discriminate.
    apply in_app_or in Hin as [Hin | [Hin | []]];
      [|destruct (existsb _ _); discriminate].
    apply in_flat_map in Hin as ([name' regex] & Hrule & Hin).
    apply error_in_rule_events in Hin as (Heq & value & Henv & Htruthy & Hwhy).
    apply msg_failed_inj in Heq. cbn [fst snd] in Heq, Henv, Hwhy. subst name'.
    exists regex, value. repeat split; try assumption.
    + apply truthy_string_nonempty, Htruthy.
    + destruct Hwhy as [Hthrows | (pattern & Hpattern & Htest)];
        [left; exact Hthrows | right].
      exists pattern. split; [exact Hpattern|].
      intros s. rewrite validateSecret_runs. cbn [fst]. rewrite Htest. reflexivity.
  - intros (regex & value & Hrule & Henv & Hvalue & Hwhy).
    right; right. apply in_or_app. left. apply in_flat_map.
    exists (name, regex). split; [exact Hrule|].
    apply error_in_rule_events. split; [reflexivity|]. exists value.
    repeat split; [exact Henv | apply truthy_string_nonempty, Hvalue |].
    destruct Hwhy as [Hthrows | (pattern & Hpattern & Hfalse)];
      [left; exact Hthrows | right].
    exists pattern. split; [exact Hpattern|].
    specialize (Hfalse initial_state). rewrite validateSecret_runs in Hfalse.
    cbn [fst] in Hfalse. injection Hfalse as Hfalse. exact Hfalse.
Qed.

(** X8. A configuration whose [secrets] table is empty passes: the run
    announces 0 secrets and reports success, whatever the environment. *)
Theorem empty_table_succeeds (w : World) doc :
  config_loaded w doc →
  get_property "secrets" doc = JObject [] →
  ∃ tomlFilePath,
    run_trace w =
    [Debug ("Looking for TOML configuration at: " +:+ tomlFilePath);
     Info "Found 0 secrets to validate";
     Info "All secrets validated successfully"].
Proof.
  intros Hloaded Hsecrets.
  destruct (run_loaded w doc [] Hloaded Hsecrets) as (tomlFilePath & ->).
  exists tomlFilePath. reflexivity.
Qed.

End More_orchestrator.

(** ** Further properties of the engine and of the command line *)

Section More_engine.
Context `{JSHost}.
Import ValidateSecrets.

(** X9. When the pattern compiles and the value does not match it,
    [validateSecret] returns [false] and its one message is the cross,
    the quoted name, "does not match the required pattern:" and the
    pattern as it was given. *)
Theorem validateSecret_mismatch name value pattern regex s :
  RegExp_new pattern = inr regex →
  RegExp_test regex value = false →
  validateSecret name value pattern s =
  (Normal false,
   (console_log_call
      ("❌ Secret '" +:+ name +:+ "' does not match the required pattern: "
       +:+ pattern)
      (emit (Called_validateSecret name value pattern) s).2).2).
Proof.
  intros Hnew Htest. rewrite validateSecret_runs. unfold test_result, verdict.
  rewrite Hnew, Htest. reflexivity.
Qed.

(** X10. The line [validateSecret] prints tells its outcome: two calls
    that print the same line return the same result and took the same
    branch (valid, mismatch or compile error), whatever their names,
    values and patterns. *)
Theorem printed_line_tells_the_outcome name value pattern name' value' pattern' s s' :
  validationOutput
    (validateSecret name value pattern
       {| log := []; console_log := capture_console_log; validationOutput := "" |}).2
  = validationOutput
      (validateSecret name' value' pattern'
         {| log := []; console_log := capture_console_log; validationOutput := "" |}).2 →
  (validateSecret name value pattern s).1 = (validateSecret name' value' pattern' s').1 ∧
  errorKind_of pattern value = errorKind_of pattern' value'.
Proof.
  rewrite !captured_line, !validateSecret_runs. cbn [fst].
  unfold verdict, test_result, errorKind_of, msg_valid, msg_mismatch, msg_error.
  destruct (RegExp_new pattern) as [e|regex], (RegExp_new pattern') as [e'|regex'];
    try destruct (RegExp_test regex value);
    try destruct (RegExp_test regex' value');
    cbn; intros Heq; try discriminate Heq; split; reflexivity.
Qed.

(** X11. The command-line entry always ends the process, with code 0 or
    with code 1, and the code is 0 exactly when the arguments gave a
    name, a value and a pattern that are not empty, the pattern compiles
    and its test of the value succeeds. *)
Theorem cli_exits_zero_iff args s :
  ((main args s).1 = Exit 0 ∨ (main args s).1 = Exit 1) ∧
  ((main args s).1 = Exit 0 ↔
   ∃ name value pattern regex,
     parse_args args "" "" "" = (name, value, pattern) ∧
     name ≠ "" ∧ value ≠ "" ∧ pattern ≠ "" ∧
     RegExp_new pattern = inr regex ∧ RegExp_test regex value = true).
Proof.
  rewrite main_runs.
  destruct (parse_args args "" "" "") as [[name value] pattern].
  destruct (truthy_string name) eqn:Hname, (truthy_string value) eqn:Hvalue,
           (truthy_string pattern) eqn:Hpattern; cbn [andb fst];
    try (split; [right; reflexivity|]; split; [discriminate|];
         intros (n & v & p & regex & [= <- <- <-] & Hn & Hv & Hp & _);
         apply truthy_string_nonempty in Hn, Hv, Hp; congruence).
  unfold test_result. destruct (RegExp_new pattern) as [e|regex] eqn:Hnew.
  - split; [right; reflexivity|]. split; [discriminate|].
    intros (n & v & p & regex & [= <- <- <-] & _ & _ & _ & Hnew' & _).
    congruence.
  - destruct (RegExp_test regex value) eqn:Htest.
    + split; [left; reflexivity|]. split; [|reflexivity]. intros _.
      exists name, value, pattern, regex.
      repeat split; try apply truthy_string_nonempty; assumption.
    + split; [right; reflexivity|]. split; [discriminate|].
      intros (n & v & p & regex' & [= <- <- <-] & _ & _ & _ & Hnew' & Htest').
      rewrite Hnew in Hnew'. injection Hnew' as <-. congruence.
Qed.

Lemma parse_args_options options name value regex :
  Forall (λ option, is_option option.1 = true) options →
  parse_args (flat_map (λ option, [option.1; option.2]) options) name value regex
  = (last_value "--name" options name,
     last_value "--value" options value,
     last_value "--regex" options regex).
Proof.
  intros Hoptions. revert name value regex.
  induction Hoptions as [|[flag arg] rest Hflag _ IH]; intros name value regex;
    [reflexivity|].
  cbn [flat_map app fst snd]. rewrite parse_args_step.
  unfold last_value. cbn [fold_left fst snd]. fold (last_value "--name" rest).
  fold (last_value "--value" rest). fold (last_value "--regex" rest).
  unfold is_option in Hflag. cbn [fst] in Hflag.
  destruct (String.eqb_spec flag "--name") as [->|_];
    [rewrite IH; reflexivity|].
  destruct (String.eqb_spec flag "--value") as [->|_];
    [rewrite IH; reflexivity|].
  destruct (String.eqb_spec flag "--regex") as [->|_];
    [rewrite IH; reflexivity | discriminate].
Qed.

(** X12. When the arguments are options, each followed by its value, the
    entry reads for each of [--name], [--value] and [--regex] the value of
    its last occurrence, and the empty string when it does not occur: the
    order of the options does not matter, a repeated option overrides the
    earlier one, and a value is taken as it stands even when it reads
    like an option. *)
Theorem options_are_read_last_wins options :
  Forall (λ option, is_option option.1 = true) options →
  parse_args (flat_map (λ option, [option.1; option.2]) options) "" "" ""
  = (last_value "--name" options "",
     last_value "--value" options "",
     last_value "--regex" options "").
Proof. intros Hoptions. apply parse_args_options, Hoptions. Qed.

End More_engine.

(** ** validateEnv.ts *)

Section Objects.

Lemma get_set_own key key' value o :
  JsObject.get key (JsObject.set_own key' value o)
  = if String.eqb key' key then Some value else JsObject.get key o.
Proof.
  induction o as [|[k v] rest IH]; cbn.
  - destruct (String.eqb key' key); reflexivity.
  - destruct (String.eqb_spec k key') as [->|Hk]; cbn.
    + destruct (String.eqb key' key); reflexivity.
    + rewrite IH. destruct (String.eqb_spec k key) as [->|_]; [|reflexivity].
      destruct (String.eqb_spec key' key) as [->|_]; [contradiction | reflexivity].
Qed.

Lemma get_set key key' value o :
  JsObject.get key (JsObject.set key' value o)
  = if String.eqb key' "__proto__" then JsObject.get key o
    else if String.eqb key' key then Some value else JsObject.get key o.
Proof.
  unfold JsObject.set. destruct (String.eqb key' "__proto__"); [reflexivity|].
  apply get_set_own.
Qed.

Lemma get_Some_iff_own key o :
  In key (List.map fst o) ↔ ∃ type, JsObject.get key o = Some type.
Proof.
  induction o as [|[k v] rest IH]; cbn.
  - split; [intros [] | intros (type & Hget); discriminate].
  - destruct (String.eqb_spec k key) as [->|Hk].
    + split; [intros _; eexists; reflexivity | intros _; left; reflexivity].
    + rewrite <- IH. split; [intros [Heq | Hin]; [contradiction | exact Hin]|].
      intros Hin. right. exact Hin.
Qed.

Lemma array_index_pretty key n :
  JsObject.array_index key = Some n → pretty n = key.
Proof.
  unfold JsObject.array_index. destruct key as [|c rest]; [discriminate|].
  destruct (JsObject.parse_digits _ _) as [m|]; [|discriminate].
  destruct (m <? 4294967295)%N; [|discriminate]. cbn [andb].
  destruct (String.eqb_spec (pretty m) (String c rest)) as [Heq|_]; [|discriminate].
  intros [= <-]. exact Heq.
Qed.

(** [for ... in] visits every own property, and nothing else. *)
Lemma keys_own key o : In key (JsObject.keys o) ↔ In key (List.map fst o).
Proof.
  unfold JsObject.keys. rewrite in_app_iff, in_map_iff, filter_In.
  unfold JsObject.is_array_index. split.
  - intros [(n & Hpretty & Hin) | [Hin _]]; [|exact Hin].
    apply list_elem_of_In in Hin. rewrite merge_sort_Permutation in Hin.
    apply list_elem_of_omap in Hin as (key' & Hin & Hindex).
    apply array_index_pretty in Hindex. apply list_elem_of_In in Hin. congruence.
  - intros Hin. destruct (JsObject.array_index key) as [n|] eqn:Hindex.
    + left. exists n. split; [apply array_index_pretty, Hindex|].
      apply list_elem_of_In. rewrite merge_sort_Permutation.
      apply list_elem_of_omap. exists key. split; [apply list_elem_of_In, Hin | exact Hindex].
    + right. split; [exact Hin | reflexivity].
Qed.

End Objects.

Section Checks.
Import ValidateEnv.

Lemma for_in_ok keys body :
  for_in keys body = inr () ↔ ∀ key, In key keys → body key = inr ().
Proof.
  induction keys as [|key rest IH]; cbn.
  - split; [intros _ key [] | reflexivity].
  - destruct (body key) as [e|[]] eqn:Hbody.
    + split; [discriminate|]. intros Hall.
      specialize (Hall key (or_introl eq_refl)). congruence.
    + rewrite IH. split.
      * intros Hall key' [<- | Hin]; [exact Hbody | apply Hall, Hin].
      * intros Hall key' Hin. apply Hall. right. exact Hin.
Qed.

Lemma for_in_throws keys body e :
  for_in keys body = inl e →
  ∃ before key after,
    keys = before ++ key :: after ∧
    (∀ k, In k before → body k = inr ()) ∧
    body key = inl e.
Proof.
  induction keys as [|key rest IH]; cbn; [discriminate|].
  destruct (body key) as [e'|[]] eqn:Hbody.
  - intros [= <-]. exists [], key, rest. repeat split; [intros k []| exact Hbody].
  - intros Hrest. destruct (IH Hrest) as (before & key' & after & -> & Hbefore & Hkey).
    exists (key :: before), key', after. repeat split; [|exact Hkey].
    intros k [<- | Hin]; [exact Hbody | apply Hbefore, Hin].
Qed.

Lemma check_ok env envChecks key :
  check env envChecks key = inr () ↔
  ∃ value, read_plain env key = Some value ∧ value ≠ "" ∧
           (JsObject.get key envChecks = Some "sha" → is_sha value = true).
Proof.
  unfold check. destruct (read_plain env key) as [value|].
  - destruct (truthy_string value) eqn:Htruthy; cbn [negb].
    + apply truthy_string_nonempty in Htruthy.
      destruct (JsObject.get key envChecks) as [type|].
      * destruct (String.eqb_spec type "sha") as [->|Htype]; cbn [andb].
        -- destruct (is_sha value) eqn:Hsha; cbn [negb].
           ++ split; [|reflexivity]. intros _. exists value.
              split; [reflexivity|]. split; [assumption | intros _; exact Hsha].
           ++ split; [discriminate|]. intros (value' & [= <-] & _ & Hsha').
              specialize (Hsha' eq_refl). congruence.
        -- split; [|reflexivity]. intros _. exists value.
           split; [reflexivity|]. split; [assumption|]. intros [= ->]. contradiction.
      * split; [|reflexivity]. intros _. exists value.
        split; [reflexivity|]. split; [assumption | discriminate].
    + split; [discriminate|]. intros (value' & [= <-] & Hvalue & _).
      apply truthy_string_nonempty in Hvalue. congruence.
  - split; [discriminate|]. intros (value & Hsome & _). discriminate.
Qed.

Lemma validateEnv_ok_iff env envChecks :
  validateEnv env envChecks = inr () ↔ passes env envChecks.
Proof.
  unfold validateEnv, passes. rewrite for_in_ok. split.
  - intros Hall key type Hget.
    assert (In key (JsObject.keys envChecks)) as Hin
      by (apply keys_own, get_Some_iff_own; eexists; exact Hget).
    apply Hall, check_ok in Hin as (value & Henv & Hvalue & Hsha).
    exists value. repeat split; [assumption..|]. intros ->. apply Hsha, Hget.
  - intros Hpasses key Hin.
    apply keys_own, get_Some_iff_own in Hin as (type & Hget).
    destruct (Hpasses key type Hget) as (value & Henv & Hvalue & Hsha).
    apply check_ok. exists value. repeat split; [assumption..|].
    intros Hget'. apply Hsha. congruence.
Qed.

(** X13. [validateEnv] returns, without throwing, exactly when every
    key of the checks reads, on the plain object [env], a value that is
    not empty (an own variable, or else the member of that name inherited
    from [Object.prototype]) and that is a string of 40 hexadecimal
    digits where the check of the key is [sha]; a check of any other type
    asks for a non-empty read only. *)
Theorem validateEnv_returns_iff_passes env envChecks :
  validateEnv env envChecks = inr () ↔ passes env envChecks.
Proof. apply validateEnv_ok_iff. Qed.

(** X14. When [validateEnv] throws, the error is about the first key, in
    the order [for ... in] visits the checks, whose read fails: every key
    before it passes, and the message says that the variable is missing
    when the read of [env[key]] is [undefined] or the empty string, and
    otherwise that it is not a valid SHA (its check is [sha] and the
    value read, an own variable or an inherited member, is not 40
    hexadecimal digits). *)
Theorem validateEnv_throws_on_first_failure env envChecks e :
  validateEnv env envChecks = inl e →
  ∃ before key after,
    JsObject.keys envChecks = before ++ key :: after ∧
    (∀ k, In k before → check env envChecks k = inr ()) ∧
    (((read_plain env key = None ∨ read_plain env key = Some "") ∧
      e = JsError ("Environment variable " +:+ key +:+ " is missing.")) ∨
     (∃ value, read_plain env key = Some value ∧ value ≠ "" ∧
               JsObject.get key envChecks = Some "sha" ∧ is_sha value = false ∧
               e = JsError ("Environment variable " +:+ key
                            +:+ " is not a valid SHA."))).
Proof.
  intros Hthrows. apply for_in_throws in Hthrows
    as (before & key & after & Hkeys & Hbefore & Hkey).
  exists before, key, after. repeat split; [assumption..|].
  unfold check in Hkey. destruct (read_plain env key) as [value|]; cbn.
  - destruct (truthy_string value) eqn:Htruthy; cbn [negb] in *.
    + right. destruct (JsObject.get key envChecks) as [type|]; [|discriminate].
      destruct (String.eqb type "sha") eqn:Htype; [|discriminate].
      apply String.eqb_eq in Htype. subst type.
      destruct (is_sha value) eqn:Hsha; [discriminate|].
      injection Hkey as <-. exists value.
      repeat split; try reflexivity; [apply truthy_string_nonempty, Htruthy | exact Hsha].
    + left. injection Hkey as <-. split; [right | reflexivity].
      destruct value; [reflexivity | discriminate].
  - left. injection Hkey as <-. split; [left|]; reflexivity.
Qed.

End Checks.

Section Loading_properties.
Context `{JSHost}.
Import ValidateEnv.

Lemma split_nonempty sep s : split sep s ≠ [].
Proof.
  destruct s as [|c rest]; cbn; [discriminate|].
  destruct (Ascii.eqb c sep); [discriminate|].
  destruct (split sep rest); discriminate.
Qed.

Lemma add_line_declared envChecks line :
  add_line envChecks line
  = match declared line with
    | Some (key, type) => JsObject.set key type envChecks
    | None => envChecks
    end.
Proof.
  unfold add_line, declared.
  destruct (split ":" line) as [|field fields] eqn:Hsplit;
    [destruct (split_nonempty _ _ Hsplit)|].
  cbn. destruct fields as [|field' fields]; cbn; [reflexivity|].
  destruct (truthy_string (String_trim field) && truthy_string (String_trim field'));
    reflexivity.
Qed.

(** After the lines are added, [key] has the type of the last line that
    declares it, or the type it had when no line does. *)
Lemma fold_add_line_lookup key type lines envChecks :
  key ≠ "__proto__" →
  JsObject.get key (fold_left add_line lines envChecks) = Some type ↔
  (∃ before line after,
     lines = before ++ line :: after ∧ declared line = Some (key, type) ∧
     ∀ l t, In l after → declared l ≠ Some (key, t)) ∨
  (JsObject.get key envChecks = Some type ∧
   ∀ l t, In l lines → declared l ≠ Some (key, t)).
Proof.
  intros Hkey. revert envChecks.
  induction lines as [|l ls IH]; intros envChecks.
  - cbn. split.
    + intros Hget. right. split; [exact Hget | intros l t []].
    + intros [(before & line & after & Hnil & _) | [Hget _]]; [|exact Hget].
      destruct before; discriminate.
  - cbn [fold_left]. rewrite IH. clear IH. rewrite add_line_declared. split.
    + intros [(before & line & after & -> & Hline & Hafter) | [Hget Hnone]].
      * left. exists (l :: before), line, after. repeat split; assumption.
      * destruct (declared l) as [[k t]|] eqn:Hl.
        -- rewrite get_set in Hget.
           destruct (String.eqb_spec k key) as [->|Hk].
           ++ destruct (String.eqb_spec key "__proto__"); [contradiction|].
              injection Hget as ->. left. exists [], l, ls.
              repeat split; assumption.
           ++ right. split.
              ** destruct (String.eqb k "__proto__"); exact Hget.
              ** intros l' t' [<- | Hin]; [congruence | apply Hnone, Hin].
        -- right. split; [exact Hget|].
           intros l' t' [<- | Hin]; [congruence | apply Hnone, Hin].
    + intros [(before & line & after & Hlines & Hline & Hafter) | [Hget Hnone]].
      * destruct before as [|l' before]; cbn in Hlines; injection Hlines as <- ->.
        -- right. rewrite Hline, get_set.
           destruct (String.eqb_spec key "__proto__"); [contradiction|].
           rewrite String.eqb_refl. split; [reflexivity | exact Hafter].
        -- left. exists before, line, after. repeat split; assumption.
      * right. split; [|intros l' t' Hin; apply Hnone; right; exact Hin].
        destruct (declared l) as [[k t]|] eqn:Hl; [|exact Hget].
        rewrite get_set.
        destruct (String.eqb_spec k key) as [->|Hk].
        -- exfalso. apply (Hnone l t); [left; reflexivity | exact Hl].
        -- destruct (String.eqb k "__proto__"); exact Hget.
Qed.

Lemma fold_add_line_proto lines envChecks :
  JsObject.get "__proto__" envChecks = None →
  JsObject.get "__proto__" (fold_left add_line lines envChecks) = None.
Proof.
  revert envChecks. induction lines as [|line rest IH]; intros envChecks Hnone;
    [exact Hnone|].
  cbn [fold_left]. apply IH. rewrite add_line_declared.
  destruct (declared line) as [[k t]|]; [|exact Hnone].
  rewrite get_set. destruct (String.eqb_spec k "__proto__") as [->|Hk];
    [exact Hnone|].
  destruct (String.eqb_spec k "__proto__"); [contradiction | exact Hnone].
Qed.

(** X15. The checks [loadEnvChecks] reads from a file: a name other than
    [__proto__] has the type that the last line declaring it gives (a line
    declares the first two fields between colons, trimmed, when neither
    is empty), and it has no check when no line declares it; the name
    [__proto__] never has a check, whatever the lines declare. *)
Theorem loadEnvChecks_last_line_wins (w : World) filePath fileContent :
  readFileSync w filePath = inr fileContent →
  ∃ envChecks,
    loadEnvChecks w filePath = inr envChecks ∧
    (∀ key type, key ≠ "__proto__" →
       (JsObject.get key envChecks = Some type ↔
        ∃ before line after,
          split "010" fileContent = before ++ line :: after ∧
          declared line = Some (key, type) ∧
          ∀ l t, In l after → declared l ≠ Some (key, t))) ∧
    JsObject.get "__proto__" envChecks = None ∧
    ¬ In "__proto__" (JsObject.keys envChecks).
Proof.
  intros Hread. unfold loadEnvChecks. rewrite Hread.
  eexists. split; [reflexivity|]. unfold parse_checks. split; [|split].
  - intros key type Hkey.
    rewrite (fold_add_line_lookup key type _ [] Hkey). split.
    + intros [Hfound | [Hget _]]; [exact Hfound | discriminate].
    + intros Hfound. left. exact Hfound.
  - apply fold_add_line_proto. reflexivity.
  - intros Hin. apply keys_own, get_Some_iff_own in Hin as (type & Hget).
    rewrite fold_add_line_proto in Hget; [discriminate | reflexivity].
Qed.


Lemma split_no_sep sep s :
  ¬ In sep (list_ascii_of_string s) → split sep s = [s].
Proof.
  induction s as [|c rest IH]; cbn; [reflexivity|]. intros Hnot.
  destruct (Ascii.eqb_spec c sep) as [->|_];
    [exfalso; apply Hnot; left; reflexivity|].
  rewrite IH; [reflexivity|]. intros Hin. apply Hnot. right. exact Hin.
Qed.

Lemma split_field_chars sep s field c :
  In field (split sep s) → In c (list_ascii_of_string field) →
  In c (list_ascii_of_string s).
Proof.
  revert field. induction s as [|c' rest IH]; cbn; intros field.
  - intros [<- | []] [].
  - destruct (Ascii.eqb c' sep).
    + intros [<- | Hin] Hc; [destruct Hc|]. right. apply (IH field); assumption.
    + destruct (split sep rest) as [|first fields] eqn:Hsplit;
        [destruct (split_nonempty _ _ Hsplit)|].
      intros [<- | Hin] Hc.
      * destruct Hc as [<- | Hc]; [left; reflexivity|].
        right. apply (IH first); [left; reflexivity | exact Hc].
      * right. apply (IH field); [right; exact Hin | exact Hc].
Qed.

Lemma declared_needs_colon line :
  ¬ In ":"%char (list_ascii_of_string line) → declared line = None.
Proof.
  intros Hnot. unfold declared. rewrite (split_no_sep _ _ Hnot). reflexivity.
Qed.

Lemma fold_add_line_nothing lines envChecks :
  (∀ line, In line lines → declared line = None) →
  fold_left add_line lines envChecks = envChecks.
Proof.
  revert envChecks. induction lines as [|line rest IH]; intros envChecks Hnone;
    [reflexivity|].
  cbn [fold_left]. rewrite add_line_declared, (Hnone line (or_introl eq_refl)).
  apply IH. intros line' Hin. apply Hnone. right. exact Hin.
Qed.

(** X16. A check file without any colon, the empty file among them,
    declares no check, and [validateEnv] then accepts every environment,
    the empty one included. *)
Theorem file_without_colon_checks_nothing (w : World) filePath fileContent env :
  readFileSync w filePath = inr fileContent →
  ¬ In ":"%char (list_ascii_of_string fileContent) →
  loadEnvChecks w filePath = inr [] ∧ validateEnv env [] = inr ().
Proof.
  intros Hread Hnot. split; [|reflexivity].
  unfold loadEnvChecks. rewrite Hread. f_equal. unfold parse_checks.
  apply fold_add_line_nothing. intros line Hin. apply declared_needs_colon.
  intros Hcolon. apply Hnot. exact (split_field_chars _ _ _ _ Hin Hcolon).
Qed.

Lemma filteredEnv_lookup (w : World) key :
  filteredEnv w !! key
  = if JsObject.is_array_index key || String.eqb key "__proto__" then None
    else process_env w !! key.
Proof.
  unfold filteredEnv.
  destruct (JsObject.is_array_index key) eqn:Hindex; cbn [orb].
  - apply map_lookup_filter_None. destruct (process_env w !! key) as [value|];
      [right | left; reflexivity].
    intros x _ [Hnot _]. cbn in Hnot. congruence.
  - destruct (String.eqb_spec key "__proto__") as [->|Hkey].
    + apply map_lookup_filter_None. destruct (process_env w !! "__proto__");
        [right | left; reflexivity].
      intros x _ [_ Hnot]. apply Hnot. reflexivity.
    + destruct (process_env w !! key) as [value|] eqn:Henv.
      * apply map_lookup_filter_Some. repeat split; assumption.
      * apply map_lookup_filter_None. left. exact Henv.
Qed.

Lemma entry_cases (w : World) :
  (entry w = inr [SetOutput "validation-passed" true] ↔
   ∃ builtin extra,
     loadEnvChecks w (env_checks_path w) = inr builtin ∧
     passes (filteredEnv w) builtin ∧
     loadEnvChecks w (core_getInput w "env-file") = inr extra ∧
     passes (filteredEnv w) extra) ∧
  (∀ e, entry w = inl e ↔ module_body w = inl e) ∧
  (∀ reports, entry w = inr reports →
     reports = [SetOutput "validation-passed" true] ∨
     ∃ e, entry_checks w = inl e ∧ reports = [SetFailedWith (message e)]).
Proof.
  unfold entry, module_body, entry_checks.
  destruct (loadEnvChecks w (env_checks_path w)) as [e|builtin].
  - split; [|split].
    + split; [discriminate | intros (b & x & Hb & _); discriminate].
    + intros e'. split; intros [= ->]; reflexivity.
    + intros reports. discriminate.
  - destruct (validateEnv (filteredEnv w) builtin) as [e|[]] eqn:Hbuiltin.
    + split; [|split].
      * split; [discriminate|]. intros (b & x & [= <-] & Hpasses & _).
        apply validateEnv_ok_iff in Hpasses. congruence.
      * intros e'. split; intros [= ->]; reflexivity.
      * intros reports. discriminate.
    + apply validateEnv_ok_iff in Hbuiltin.
      destruct (loadEnvChecks w (core_getInput w "env-file")) as [e|extra].
      * split; [|split].
        -- split; [discriminate | intros (b & x & _ & _ & Hx & _); discriminate].
        -- intros e'. split; discriminate.
        -- intros reports [= <-]. right. exists e. split; reflexivity.
      * destruct (validateEnv (filteredEnv w) extra) as [e|[]] eqn:Hextra.
        -- split; [|split].
           ++ split; [discriminate|]. intros (b & x & _ & _ & [= <-] & Hpasses).
              apply validateEnv_ok_iff in Hpasses. congruence.
           ++ intros e'. split; discriminate.
           ++ intros reports [= <-]. right. exists e. split; reflexivity.
        -- apply validateEnv_ok_iff in Hextra. split; [|split].
           ++ split; [|reflexivity]. intros _. exists builtin, extra.
              repeat split; assumption.
           ++ intros e'. split; discriminate.
           ++ intros reports [= <-]. left. reflexivity.
Qed.

(** X17. The action's entry.  Its environment is the filtered one: the
    variables of the process except those named by an array index, which
    read [undefined], and [__proto__], which cannot be assigned.  The
    entry reports [validation-passed] exactly when both check files, the
    built-in one and the one named by the input [env-file], can be read
    and the filtered environment passes the checks of both.  An error of
    the built-in checks, raised while the module is imported, is not
    caught: the entry then dies with it and reports nothing.  In every
    other case the entry makes exactly one report, [setFailed] with the
    message of the error. *)
Theorem entry_reports (w : World) :
  (entry w = inr [SetOutput "validation-passed" true] ↔
   ∃ builtin extra,
     loadEnvChecks w (env_checks_path w) = inr builtin ∧
     passes (filteredEnv w) builtin ∧
     loadEnvChecks w (core_getInput w "env-file") = inr extra ∧
     passes (filteredEnv w) extra) ∧
  (∀ key, filteredEnv w !! key
          = if JsObject.is_array_index key || String.eqb key "__proto__" then None
            else process_env w !! key) ∧
  (∀ e, entry w = inl e ↔ module_body w = inl e) ∧
  (∀ reports, entry w = inr reports →
     reports = [SetOutput "validation-passed" true] ∨
     ∃ e, entry_checks w = inl e ∧ reports = [SetFailedWith (message e)]).
Proof.
  destruct (entry_cases w) as (Hpassed & Huncaught & Hreports).
  split; [exact Hpassed|]. split; [apply filteredEnv_lookup|].
  split; [exact Huncaught | exact Hreports].
Qed.

End Loading_properties.

(** ** The further properties on the sample host *)

Section More_samples.
Import Sample Sample2 ValidateSecrets.
Existing Instance literal_host.

Lemma run_completes_and_restores_witness :
  (Index.run (Sample.world (inr two_rules) bad_env) initial_state).1 = Normal () ∧
  console_log (Index.run (Sample.world (inr two_rules) bad_env) initial_state).2
    = original_console_log.
Proof.
  exact (run_completes_and_restores (Sample.world (inr two_rules) bad_env)
           initial_state eq_refl).
Defined.

Lemma load_errors_are_reported_witness :
  List.filter is_setFailed
    (Index.run_trace (Sample.world (inl (JsError "Expected a value")) good_env))
    = [SetFailed "Secret validation failed: Expected a value"] ∧
  Forall (λ ev, per_rule_event ev = false)
    (Index.run_trace (Sample.world (inl (JsError "Expected a value")) good_env)).
Proof.
  apply (load_errors_are_reported
           (Sample.world (inl (JsError "Expected a value")) good_env)
           (JsError "Expected a value")).
  right. exists ".github/secret-validation.toml". repeat split; try reflexivity.
  right. exists "[secrets]". split; reflexivity.
Defined.

Lemma every_rule_is_looked_up_witness :
  env_reads (Index.run_trace (Sample.world (inr with_missing_rule) bad_env))
  = ["API_KEY"; "MISSING_SECRET"].
Proof.
  exact (every_rule_is_looked_up (Sample.world (inr with_missing_rule) bad_env)
           with_missing_rule _ (sample_loaded _ _) eq_refl).
Defined.

(** Of the three odd rules only the inherited name reaches the engine. *)
Lemma engine_called_once_per_present_rule_witness :
  engine_calls (Index.run_trace (Sample.world (inr odd_rules) odd_env))
  = [("toString", "function toString() { [native code] }", "native")].
Proof.
  etransitivity.
  - exact (engine_called_once_per_present_rule
             (Sample.world (inr odd_rules) odd_env)
             odd_rules _ (sample_loaded _ _) eq_refl).
  - vm_compute. reflexivity.
Defined.

(** The rule whose pattern is a table is reported by the inner handler. *)
Lemma error_annotation_iff_witness :
  In (Error "Validation failed for secret: API_KEY")
     (Index.run_trace (Sample.world (inr odd_rules) odd_env)).
Proof.
  apply (proj2 (error_annotation_iff (Sample.world (inr odd_rules) odd_env)
                  odd_rules _ "API_KEY" (sample_loaded _ _) eq_refl)).
  exists (JObject []), "KEY-1". split; [right; right; left; reflexivity|].
  split; [vm_compute; reflexivity|]. split; [discriminate|].
  left. eexists. reflexivity.
Defined.

Lemma empty_table_succeeds_witness :
  ∃ tomlFilePath,
    Index.run_trace (Sample.world (inr empty_table) good_env) =
    [Debug ("Looking for TOML configuration at: " +:+ tomlFilePath);
     Info "Found 0 secrets to validate";
     Info "All secrets validated successfully"].
Proof.
  exact (empty_table_succeeds (Sample.world (inr empty_table) good_env)
           empty_table (sample_loaded _ _) eq_refl).
Defined.

Lemma validateSecret_mismatch_witness :
  validateSecret "API_KEY" "1234" "KEY-" initial_state =
  (Normal false,
   {| log := [Called_validateSecret "API_KEY" "1234" "KEY-";
              Stdout "❌ Secret 'API_KEY' does not match the required pattern: KEY-"];
      console_log := original_console_log;
      validationOutput := "" |}).
Proof.
  exact (validateSecret_mismatch "API_KEY" "1234" "KEY-" "KEY-" initial_state
           eq_refl eq_refl).
Defined.

Lemma printed_line_tells_the_outcome_witness :
  (validateSecret "K" "KEY-1" "KEY-" initial_state).1
    = (validateSecret "K" "my-KEY-2" "KEY-" initial_state).1 ∧
  errorKind_of "KEY-" "KEY-1" = errorKind_of "KEY-" "my-KEY-2".
Proof.
  exact (printed_line_tells_the_outcome "K" "KEY-1" "KEY-" "K" "my-KEY-2" "KEY-"
           initial_state initial_state eq_refl).
Defined.

Lemma options_are_read_last_wins_witness :
  parse_args ["--regex"; "a"; "--name"; "n"; "--value"; "--name"; "--name"; "m"]
             "" "" ""
  = ("m", "--name", "a").
Proof.
  apply (options_are_read_last_wins
           [("--regex", "a"); ("--name", "n"); ("--value", "--name"); ("--name", "m")]).
  repeat constructor.
Defined.

Lemma validateEnv_throws_on_first_failure_witness :
  ∃ before key after,
    JsObject.keys three_checks = before ++ key :: after ∧
    (∀ k, In k before →
       ValidateEnv.check env_two_faults three_checks k = inr ()) ∧
    (((read_plain env_two_faults key = None
       ∨ read_plain env_two_faults key = Some "") ∧
      JsError "Environment variable 10 is missing."
        = JsError ("Environment variable " +:+ key +:+ " is missing.")) ∨
     (∃ value, read_plain env_two_faults key = Some value ∧ value ≠ "" ∧
               JsObject.get key three_checks = Some "sha" ∧
               ValidateEnv.is_sha value = false ∧
               JsError "Environment variable 10 is missing."
                 = JsError ("Environment variable " +:+ key
                            +:+ " is not a valid SHA."))).
Proof.
  apply (validateEnv_throws_on_first_failure env_two_faults three_checks
           (JsError "Environment variable 10 is missing.")).
  vm_compute. reflexivity.
Defined.

Lemma loadEnvChecks_last_line_wins_witness :
  ∃ envChecks,
    ValidateEnv.loadEnvChecks (Sample2.world env_ok) "/action/env_checks.toml"
      = inr envChecks ∧
    (∀ key type, key ≠ "__proto__" →
       (JsObject.get key envChecks = Some type ↔
        ∃ before line after,
          ValidateEnv.split "010" checks_text = before ++ line :: after ∧
          declared line = Some (key, type) ∧
          ∀ l t, In l after → declared l ≠ Some (key, t))) ∧
    JsObject.get "__proto__" envChecks = None ∧
    ¬ In "__proto__" (JsObject.keys envChecks).
Proof.
  exact (loadEnvChecks_last_line_wins (Sample2.world env_ok)
           "/action/env_checks.toml" checks_text eq_refl).
Defined.

Lemma file_without_colon_checks_nothing_witness :
  ValidateEnv.loadEnvChecks
    {| ValidateEnv.readFileSync := λ _, inr "# nothing to check";
       ValidateEnv.env_checks_path := "/action/env_checks.toml";
       ValidateEnv.core_getInput := λ _, "";
       ValidateEnv.process_env := ∅ |} "/action/env_checks.toml" = inr [] ∧
  ValidateEnv.validateEnv ∅ [] = inr ().
Proof.
  apply (file_without_colon_checks_nothing _ _ "# nothing to check").
  - reflexivity.
  - vm_compute. intros Hin.
    repeat (destruct Hin as [Hin | Hin]; [discriminate|]). exact Hin.
Defined.

End More_samples.

(** Inherited members and dropped variables, through the theorems. *)
Section Inherited_samples.
Import Sample2.
Existing Instance Sample.literal_host.

(** A check on [toString] passes on an empty object: the read gives the
    inherited function. *)
Lemma validateEnv_returns_iff_passes_witness :
  passes ∅ [("toString", "text")].
Proof.
  apply (proj1 (validateEnv_returns_iff_passes ∅ [("toString", "text")])).
  vm_compute. reflexivity.
Defined.

(** The variables named [2] and [10] are set, and dropped from the
    filtered environment: the built-in checks fail at import. *)
Lemma entry_reports_witness :
  ValidateEnv.entry (Sample2.world env_ok)
  = inl (JsError "Environment variable 2 is missing.").
Proof.
  apply (proj2 (proj1 (proj2 (proj2 (entry_reports (Sample2.world env_ok)))) _)).
  vm_compute. reflexivity.
Defined.

End Inherited_samples.
